(** * Expense-tracker AI glue: a shallow embedding of [src/lib/ai.ts] and
      [src/app/actions/suggestCategory.ts]

    The development follows the TypeScript sources function by function.

    - A JavaScript string is a [string] whose characters are UTF-16 code
      units below 256 (ASCII and the Latin-1 supplement); [trim], [\s],
      [toLowerCase], [startsWith] and [includes] are given their
      ECMAScript meaning on that range.
    - A JavaScript value is a [jsval]; a number is a [number] (a finite
      value is kept as the rational it denotes).
    - [throw] / [try ... catch] is the error monad [result].
    - [await openai.chat.completions.create(...)] is a node [Await] of the
      free monad [Async]; [run] interprets it against a remote service and
      records the requests that were sent.
    - [JSON.parse], [JSON.stringify] and [Date.now] belong to the platform
      and are parameters of the model.
    - Writing to the console is left out: no result depends on it. *)

From Stdlib Require Import Bool List String Ascii NArith ZArith QArith Lia.
From Stdlib Require Import DecimalString DecimalNat.
Import ListNotations.

Local Open Scope list_scope.
Local Open Scope string_scope.

(* ================================================================= *)
(** ** JavaScript strings *)

Module JsString.

Definition code (c : ascii) : N := N_of_ascii c.

(** ECMAScript [WhiteSpace] and [LineTerminator] code points below 256:
    TAB, LF, VT, FF, CR, SP and NBSP. [String.prototype.trim] and the
    regular-expression class [\s] use the same set. *)
Definition is_ws (c : ascii) : bool :=
  let n := code c in
  ((9 <=? n) && (n <=? 13) || (n =? 32) || (n =? 160))%N.

(** Lower-case mapping of one code unit: A-Z, and the Latin-1 capitals
    U+00C0..U+00DE except the multiplication sign U+00D7. *)
Definition lower_char (c : ascii) : ascii :=
  let n := code c in
  if ((65 <=? n) && (n <=? 90)
      || (192 <=? n) && (n <=? 222) && negb (n =? 215))%N
  then ascii_of_N (n + 32) else c.

(** [s.toLowerCase()] *)
Fixpoint toLowerCase (s : string) : string :=
  match s with
  | EmptyString => EmptyString
  | String c s' => String (lower_char c) (toLowerCase s')
  end.

(** [s.trimStart()] *)
Fixpoint trimStart (s : string) : string :=
  match s with
  | EmptyString => EmptyString
  | String c s' => if is_ws c then trimStart s' else s
  end.

(** [s.trimEnd()] *)
Fixpoint trimEnd (s : string) : string :=
  match s with
  | EmptyString => EmptyString
  | String c s' =>
      match trimEnd s' with
      | EmptyString => if is_ws c then EmptyString else String c EmptyString
      | t => String c t
      end
  end.

(** [s.trim()] *)
Definition trim (s : string) : string := trimEnd (trimStart s).

(** [s.startsWith(p)] *)
Fixpoint startsWith (s p : string) {struct p} : bool :=
  match p, s with
  | EmptyString, _ => true
  | String _ _, EmptyString => false
  | String a p', String b s' => Ascii.eqb a b && startsWith s' p'
  end.

(** [s.includes(k)]: [k] occurs at some position of [s]. *)
Fixpoint includes (s k : string) : bool :=
  match s with
  | EmptyString => startsWith EmptyString k
  | String _ s' => startsWith s k || includes s' k
  end.

(** [s.length] *)
Definition length (s : string) : nat := String.length s.

(** The characters of [s] that follow its first [n] ones. *)
Fixpoint drop (n : nat) (s : string) : string :=
  match n, s with
  | O, _ => s
  | S _, EmptyString => EmptyString
  | S n', String _ s' => drop n' s'
  end.

(** [s.replace(/^p\s*/, '')] for a literal [p]: the pattern is anchored
    at the start, and the greedy [\s*] takes every blank that follows. *)
Definition replace_prefix_ws (p s : string) : string :=
  if startsWith s p then trimStart (drop (String.length p) s) else s.

(** Does the whole of [s] match [\s*p] ? *)
Fixpoint all_ws_then (p s : string) : bool :=
  (s =? p) ||
  match s with
  | EmptyString => false
  | String c s' => is_ws c && all_ws_then p s'
  end.

(** [s.replace(/\s*p$/, '')] for a literal [p]: the search goes from left
    to right and the first position from which the rest of the string
    matches [\s*p] up to the end of input is where the match starts; the
    match runs to the end, so everything from there on is removed. *)
Fixpoint replace_ws_suffix (p s : string) : string :=
  if all_ws_then p s then EmptyString
  else match s with
       | EmptyString => EmptyString
       | String c s' => String c (replace_ws_suffix p s')
       end.

(** Every character of [s] is a blank. *)
Fixpoint all_ws (s : string) : bool :=
  match s with
  | EmptyString => true
  | String c s' => is_ws c && all_ws s'
  end.

(** [s] with every blank removed. *)
Fixpoint remove_ws (s : string) : string :=
  match s with
  | EmptyString => EmptyString
  | String c s' => if is_ws c then remove_ws s' else String c (remove_ws s')
  end.

(** The first character of [k] exists and is not a blank. *)
Definition first_non_ws (k : string) : bool :=
  match k with
  | EmptyString => false
  | String c _ => negb (is_ws c)
  end.

(** The last character of [k] exists and is not a blank. *)
Fixpoint last_non_ws (k : string) : bool :=
  match k with
  | EmptyString => false
  | String c EmptyString => negb (is_ws c)
  | String _ k' => last_non_ws k'
  end.

(** [k] occurs in [s]. *)
Definition is_substring (k s : string) : Prop :=
  exists pre post, s = pre ++ k ++ post.

End JsString.
Import JsString.

(* ================================================================= *)
(** ** The local keyword classifier ([categorizeExpenseLocally]) *)

Definition foodKeywords : list string :=
  [ "restaurant"; "food"; "coffee"; "lunch"; "dinner"; "breakfast"; "cafe"; "pizza";
    "burger"; "sandwich"; "grocery"; "supermarket"; "market"; "bakery"; "bar"; "pub";
    "drink"; "beer"; "wine"; "snack"; "meal"; "eat"; "dining"; "takeout"; "delivery";
    "mcdonalds"; "starbucks"; "subway"; "kfc"; "dominos"; "uber eats"; "doordash";
    "grubhub"; "postmates"; "foodpanda"; "zomato"; "swiggy" ].

Definition transportKeywords : list string :=
  [ "gas"; "fuel"; "petrol"; "diesel"; "uber"; "lyft"; "taxi"; "bus"; "train"; "metro";
    "parking"; "toll"; "car"; "vehicle"; "transport"; "flight"; "airline"; "plane";
    "airport"; "rental"; "maintenance"; "repair"; "oil change"; "tire"; "insurance";
    "registration"; "license"; "subway"; "public transport"; "ride share"; "carpool" ].

Definition entertainmentKeywords : list string :=
  [ "movie"; "cinema"; "theater"; "concert"; "music"; "game"; "gaming"; "netflix";
    "spotify"; "youtube"; "entertainment"; "fun"; "party"; "club"; "event"; "ticket";
    "show"; "performance"; "festival"; "amusement"; "park"; "zoo"; "museum"; "gallery";
    "bowling"; "pool"; "arcade"; "subscription"; "streaming"; "hulu"; "disney"; "prime" ].

Definition shoppingKeywords : list string :=
  [ "amazon"; "ebay"; "shop"; "store"; "mall"; "clothing"; "clothes"; "shoes"; "dress";
    "shirt"; "pants"; "jacket"; "electronics"; "phone"; "laptop"; "computer"; "gadget";
    "book"; "furniture"; "home"; "decor"; "gift"; "present"; "online"; "purchase";
    "buy"; "walmart"; "target"; "costco"; "nike"; "adidas"; "apple"; "samsung"; "sony" ].

Definition billsKeywords : list string :=
  [ "electric"; "electricity"; "power"; "water"; "gas bill"; "internet"; "wifi";
    "phone bill"; "mobile"; "cable"; "tv"; "utility"; "utilities"; "rent"; "mortgage";
    "insurance"; "loan"; "payment"; "subscription"; "service"; "maintenance"; "repair";
    "bank"; "fee"; "charge"; "bill"; "invoice"; "statement"; "credit card" ].

Definition healthcareKeywords : list string :=
  [ "doctor"; "hospital"; "medical"; "medicine"; "pharmacy"; "drug"; "prescription";
    "health"; "dental"; "dentist"; "clinic"; "appointment"; "checkup"; "surgery";
    "treatment"; "therapy"; "insurance"; "copay"; "deductible"; "medication"; "pills";
    "vitamins"; "supplements"; "nurse"; "specialist"; "emergency"; "urgent care" ].

(** [keywords.some(keyword => desc.includes(keyword))] *)
Definition some_included (keywords : list string) (desc : string) : bool :=
  existsb (fun keyword => includes desc keyword) keywords.

Definition categorizeExpenseLocally (description : string) : string :=
  let desc := trim (toLowerCase description) in
  if some_included foodKeywords desc then "Food"
  else if some_included transportKeywords desc then "Transportation"
  else if some_included entertainmentKeywords desc then "Entertainment"
  else if some_included shoppingKeywords desc then "Shopping"
  else if some_included billsKeywords desc then "Bills"
  else if some_included healthcareKeywords desc then "Healthcare"
  else "Other".

(* ================================================================= *)
(** ** JavaScript values, exceptions and remote calls *)

(** A JavaScript number. Every finite double is a rational; the literals
    of the program ([0.8], [429], ...) are kept as the decimals written in
    the source. *)
Inductive number : Type :=
| NaN
| Infinity (negative : bool)
| Finite (q : Q).

#[warnings="-register-all"]
Inductive jsval : Type :=
| JUndefined
| JNull
| JBool (b : bool)
| JNum (n : number)
| JStr (s : string)
| JArr (elements : list jsval)
| JObj (fields : list (string * jsval)).

(** [a === b] on numbers ([NaN] differs from itself, [-0 === 0]). *)
Definition number_eq (a b : number) : bool :=
  match a, b with
  | Finite p, Finite q => Qeq_bool p q
  | Infinity s, Infinity t => Bool.eqb s t
  | _, _ => false
  end.

(** [v === n] for a number literal [n]. *)
Definition strict_eq_num (v : jsval) (n : number) : bool :=
  match v with
  | JNum m => number_eq m n
  | _ => false
  end.

(** ECMAScript [ToBoolean]. *)
Definition truthy (v : jsval) : bool :=
  match v with
  | JUndefined | JNull => false
  | JBool b => b
  | JNum NaN => false
  | JNum (Infinity _) => true
  | JNum (Finite q) => negb (Qeq_bool q 0)
  | JStr s => negb (s =? EmptyString)
  | JArr _ | JObj _ => true
  end.

(** [a || b] *)
Definition js_or (a b : jsval) : jsval := if truthy a then a else b.

Fixpoint lookup (key : string) (fields : list (string * jsval)) : jsval :=
  match fields with
  | [] => JUndefined
  | (k, v) :: rest => if k =? key then v else lookup key rest
  end.

(** An [Error] instance, as far as this program looks at it: it has a
    [name] and a [message], and neither [status] nor [code]. *)
Definition js_error (name message : string) : jsval :=
  JObj [("name", JStr name); ("message", JStr message)].

Definition TypeError (message : string) : jsval := js_error "TypeError" message.
Definition SyntaxError (message : string) : jsval := js_error "SyntaxError" message.

(** Synchronous outcome of a piece of code: a value, or a thrown one. *)
Inductive result (A : Type) : Type :=
| Ok (a : A)
| Throw (e : jsval).
Arguments Ok {A} a.
Arguments Throw {A} e.

Definition bind {A B : Type} (r : result A) (k : A -> result B) : result B :=
  match r with
  | Ok a => k a
  | Throw e => Throw e
  end.

Notation "x <- e ;; k" := (bind e (fun x => k))
  (at level 61, e at next level, right associativity).

(** [try { body } catch (error) { handler }] *)
Definition try_catch {A : Type} (body : result A) (handler : jsval -> result A)
  : result A :=
  match body with
  | Ok a => Ok a
  | Throw error => handler error
  end.

(** [v.key]: reading a property of [null] or [undefined] throws; of the
    keys this program reads ([type], [title], [message], [action],
    [confidence], [status], [code]) only an object can hold one. *)
Definition get_prop (v : jsval) (key : string) : result jsval :=
  match v with
  | JUndefined | JNull => Throw (TypeError "Cannot read properties of null or undefined")
  | JObj fields => Ok (lookup key fields)
  | _ => Ok JUndefined
  end.

(** [v?.key] *)
Definition get_prop_opt (v : jsval) (key : string) : jsval :=
  match v with
  | JObj fields => lookup key fields
  | _ => JUndefined
  end.

(** [error?.status === 429 || error?.code === 429] *)
Definition is_rate_limit (error : jsval) : bool :=
  strict_eq_num (get_prop_opt error "status") (Finite 429)
  || strict_eq_num (get_prop_opt error "code") (Finite 429).

(** [xs.map((x, index) => f(x, index))] where the callback may throw. *)
Fixpoint map_indexed {A B : Type} (f : A -> nat -> result B)
  (index : nat) (xs : list A) : result (list B) :=
  match xs with
  | [] => Ok []
  | x :: rest =>
      y <- f x index ;;
      ys <- map_indexed f (S index) rest ;;
      Ok (y :: ys)
  end.

Module ChatMessage.
Record t : Type := { role : string; content : string }.
End ChatMessage.

Module ChatRequest.
Record t : Type :=
  { model : string;
    messages : list ChatMessage.t;
    temperature : Q;
    max_tokens : Z }.
End ChatRequest.

(** The part of a chat completion the program reads:
    [completion.choices[i].message.content], a string or [null]. *)
Module Choice.
Record message_t : Type := { content : option string }.
Record t : Type := { message : message_t }.
End Choice.

Module ChatCompletion.
Record t : Type := { choices : list Choice.t }.
End ChatCompletion.

(** An asynchronous computation: it is settled, or it awaits the remote
    chat-completion call and goes on with its outcome (the completion, or
    the value the call rejected with). *)
Inductive Async (A : Type) : Type :=
| Settled (r : result A)
| Await (req : ChatRequest.t) (k : result ChatCompletion.t -> Async A).
Arguments Settled {A} r.
Arguments Await {A} req k.

(** [x = await p; k(x)] *)
Fixpoint async_bind {A B : Type} (p : Async A) (k : A -> Async B) : Async B :=
  match p with
  | Settled (Ok a) => k a
  | Settled (Throw e) => Settled (Throw e)
  | Await req c => Await req (fun r => async_bind (c r) k)
  end.

(** [try { await p } catch (error) { handler }] *)
Fixpoint async_try {A : Type} (p : Async A) (handler : jsval -> Async A)
  : Async A :=
  match p with
  | Settled (Ok a) => Settled (Ok a)
  | Settled (Throw e) => handler e
  | Await req c => Await req (fun r => async_try (c r) handler)
  end.

(** A remote service answers each request with a completion or an error. *)
Definition Remote : Type := ChatRequest.t -> result ChatCompletion.t.

(** Running a computation against a remote service: how the returned
    promise settles, and the requests that were sent, in order. *)
Fixpoint run {A : Type} (create : Remote) (p : Async A)
  : result A * list ChatRequest.t :=
  match p with
  | Settled r => (r, [])
  | Await req k =>
      let '(r, sent) := run create (k (create req)) in (r, req :: sent)
  end.

Definition outcome {A : Type} (create : Remote) (p : Async A) : result A :=
  fst (run create p).

Definition requests {A : Type} (create : Remote) (p : Async A)
  : list ChatRequest.t :=
  snd (run create p).

(** [completion.choices[0]]: [undefined] when there is no choice, and
    reading [.message] of it throws. *)
Definition first_choice_message (completion : ChatCompletion.t)
  : result Choice.message_t :=
  match ChatCompletion.choices completion with
  | [] => Throw (TypeError "Cannot read properties of undefined (reading 'message')")
  | choice :: _ => Ok (Choice.message choice)
  end.

Definition dq : string := String "034"%char EmptyString.
Definition nl : string := String "010"%char EmptyString.
Definition lines (ls : list string) : string := String.concat nl ls.

Definition model_id : string := "deepseek/deepseek-chat-v3-0324:free".

(* ================================================================= *)
(** ** [src/lib/ai.ts] *)

Module ExpenseRecord.
Record t : Type :=
  { id : string;
    amount : number;
    category : string;
    description : string;
    date : string }.
End ExpenseRecord.

(** The projection of a record that is put into the prompts. *)
Module ExpenseSummary.
Record t : Type :=
  { amount : number;
    category : string;
    description : string;
    date : string }.
End ExpenseSummary.

(** At run time the fields copied from the remote answer hold whatever
    value the answer had, so they are [jsval]s. *)
Module AIInsight.
Record t : Type :=
  { id : string;
    type : jsval;
    title : jsval;
    message : jsval;
    action : jsval;
    confidence : jsval }.

(** Everything but the identifier. *)
Definition fields (i : t) : jsval * jsval * jsval * jsval * jsval :=
  (type i, title i, message i, action i, confidence i).
End AIInsight.

(** [expenses.map((expense) => ({ amount, category, description, date }))] *)
Definition summarize (expenses : list ExpenseRecord.t) : list ExpenseSummary.t :=
  map (fun expense =>
         {| ExpenseSummary.amount := ExpenseRecord.amount expense;
            ExpenseSummary.category := ExpenseRecord.category expense;
            ExpenseSummary.description := ExpenseRecord.description expense;
            ExpenseSummary.date := ExpenseRecord.date expense |})
      expenses.

Definition chat (system user : string) (temperature : Q) (max_tokens : Z)
  : ChatRequest.t :=
  {| ChatRequest.model := model_id;
     ChatRequest.messages :=
       [ {| ChatMessage.role := "system"; ChatMessage.content := system |};
         {| ChatMessage.role := "user"; ChatMessage.content := user |} ];
     ChatRequest.temperature := temperature;
     ChatRequest.max_tokens := max_tokens |}.

Definition rate_limit_insight : AIInsight.t :=
  {| AIInsight.id := "fallback-rate-limit";
     AIInsight.type := JStr "warning";
     AIInsight.title := JStr "AI Analysis Rate Limited";
     AIInsight.message := JStr "AI service is temporarily rate limited. Your expenses are still being tracked normally. Try refreshing in a few minutes.";
     AIInsight.action := JStr "Try again later";
     AIInsight.confidence := JNum (Finite 0.7) |}.

Definition unavailable_insight : AIInsight.t :=
  {| AIInsight.id := "fallback-1";
     AIInsight.type := JStr "info";
     AIInsight.title := JStr "AI Analysis Unavailable";
     AIInsight.message := JStr "Unable to generate personalized insights at this time. Please try again later.";
     AIInsight.action := JStr "Refresh insights";
     AIInsight.confidence := JNum (Finite 0.5) |}.

(** The two [replace] calls that remove a Markdown code fence. *)
Definition strip_fence (opening s : string) : string :=
  replace_ws_suffix "```" (replace_prefix_ws opening s).

(** Lines 92-102: [cleanedResponse]. *)
Definition clean_response (response : string) : string :=
  let cleanedResponse := trim response in
  if startsWith cleanedResponse "```json" then strip_fence "```json" cleanedResponse
  else if startsWith cleanedResponse "```" then strip_fence "```" cleanedResponse
  else cleanedResponse.

Definition string_of_Z (z : Z) : string := NilZero.string_of_int (Z.to_int z).
Definition string_of_nat (n : nat) : string := NilZero.string_of_uint (Nat.to_uint n).

Section Platform.

(** [JSON.parse]: [None] when it throws a [SyntaxError]. *)
Variable JSON_parse : string -> option jsval.
(** [JSON.stringify(expensesSummary, null, 2)] *)
Variable JSON_stringify : list ExpenseSummary.t -> string.
(** [Date.now()] as read while the element at a given index is mapped. *)
Variable Date_now : nat -> Z.

Definition insights_prompt (expenses : list ExpenseRecord.t) : string :=
  lines
    [ "Analyze the following expense data and provide 3-4 actionable financial insights. ";
      "    Return a JSON array of insights with this structure:";
      "    {";
      ("      " ++ dq ++ "type" ++ dq ++ ": " ++ dq ++ "warning|info|success|tip" ++ dq ++ ",");
      ("      " ++ dq ++ "title" ++ dq ++ ": " ++ dq ++ "Brief title" ++ dq ++ ",");
      ("      " ++ dq ++ "message" ++ dq ++ ": " ++ dq ++ "Detailed insight message with specific numbers when possible" ++ dq ++ ",");
      ("      " ++ dq ++ "action" ++ dq ++ ": " ++ dq ++ "Actionable suggestion" ++ dq ++ ",");
      ("      " ++ dq ++ "confidence" ++ dq ++ ": 0.8");
      "    }";
      EmptyString;
      "    Expense Data:";
      "    " ]
  ++ JSON_stringify (summarize expenses) ++
  lines
    [ EmptyString;
      EmptyString;
      "    Focus on:";
      "    1. Spending patterns (day of week, categories)";
      "    2. Budget alerts (high spending areas)";
      "    3. Money-saving opportunities";
      "    4. Positive reinforcement for good habits";
      EmptyString;
      "    Return only valid JSON array, no additional text." ].

Definition insights_request (expenses : list ExpenseRecord.t) : ChatRequest.t :=
  chat "You are a financial advisor AI that analyzes spending patterns and provides actionable insights. Always respond with valid JSON only."
       (insights_prompt expenses) 0.7 1000.

(** The callback of [insights.map] (lines 109-116). *)
Definition format_insight (insight : jsval) (index : nat) : result AIInsight.t :=
  let id := "ai-" ++ string_of_Z (Date_now index) ++ "-" ++ string_of_nat index in
  type <- get_prop insight "type" ;;
  title <- get_prop insight "title" ;;
  message <- get_prop insight "message" ;;
  action <- get_prop insight "action" ;;
  confidence <- get_prop insight "confidence" ;;
  Ok {| AIInsight.id := id;
        AIInsight.type := js_or type (JStr "info");
        AIInsight.title := js_or title (JStr "AI Insight");
        AIInsight.message := js_or message (JStr "Analysis complete");
        AIInsight.action := action;
        AIInsight.confidence := js_or confidence (JNum (Finite 0.8)) |}.

(** [insights.map(...)]: only an array has a [map] method among the
    values [JSON.parse] returns. *)
Definition format_insights (insights : jsval) : result (list AIInsight.t) :=
  match insights with
  | JArr elements => map_indexed format_insight 0 elements
  | _ => Throw (TypeError "insights.map is not a function")
  end.

(** Lines 87-119, after the [await]. *)
Definition insights_body (completion : ChatCompletion.t)
  : result (list AIInsight.t) :=
  message <- first_choice_message completion ;;
  match Choice.content message with
  | None => Throw (js_error "Error" "No response from AI")
  | Some response =>
      if response =? EmptyString
      then Throw (js_error "Error" "No response from AI")
      else
        match JSON_parse (clean_response response) with
        | None => Throw (SyntaxError "Unexpected token in JSON")
        | Some insights => format_insights insights
        end
  end.

(** Lines 120-150, the [catch] block. *)
Definition insights_handler (error : jsval) : result (list AIInsight.t) :=
  if is_rate_limit error then Ok [rate_limit_insight]
  else Ok [unavailable_insight].

Definition generateExpenseInsights (expenses : list ExpenseRecord.t)
  : Async (list AIInsight.t) :=
  Await (insights_request expenses)
    (fun awaited =>
       Settled (try_catch (completion <- awaited ;; insights_body completion)
                          insights_handler)).

Definition answer_prompt (question : string) (context : list ExpenseRecord.t)
  : string :=
  lines
    [ ("Based on the following expense data, provide a detailed and actionable answer to this question: " ++ dq) ]
  ++ question ++
  lines
    [ dq;
      EmptyString;
      "    Expense Data:";
      "    " ]
  ++ JSON_stringify (summarize context) ++
  lines
    [ EmptyString;
      EmptyString;
      "    Provide a comprehensive answer that:";
      "    1. Addresses the specific question directly";
      "    2. Uses concrete data from the expenses when possible";
      "    3. Offers actionable advice";
      "    4. Keeps the response concise but informative (2-3 sentences)";
      "    ";
      "    Return only the answer text, no additional formatting." ].

Definition answer_request (question : string) (context : list ExpenseRecord.t)
  : ChatRequest.t :=
  chat "You are a helpful financial advisor AI that provides specific, actionable answers based on expense data. Be concise but thorough."
       (answer_prompt question context) 0.7 200.

Definition rate_limited_answer : string :=
  "The AI service is currently rate limited. Your question will be answered once the service is available again. Please try again in a few minutes.".

Definition unavailable_answer : string :=
  "I'm unable to provide a detailed answer at the moment. Please try refreshing the insights or check your connection.".

(** Lines 321-326, after the [await]. *)
Definition answer_body (completion : ChatCompletion.t) : result string :=
  message <- first_choice_message completion ;;
  match Choice.content message with
  | None => Throw (js_error "Error" "No response from AI")
  | Some response =>
      if response =? EmptyString
      then Throw (js_error "Error" "No response from AI")
      else Ok (trim response)
  end.

(** Lines 327-336, the [catch] block. *)
Definition answer_handler (error : jsval) : result string :=
  if is_rate_limit error then Ok rate_limited_answer
  else Ok unavailable_answer.

Definition generateAIAnswer (question : string) (context : list ExpenseRecord.t)
  : Async string :=
  Await (answer_request question context)
    (fun awaited =>
       Settled (try_catch (completion <- awaited ;; answer_body completion)
                          answer_handler)).

End Platform.

Definition validCategories : list string :=
  [ "Food"; "Transportation"; "Entertainment"; "Shopping"; "Bills";
    "Healthcare"; "Other" ].

(** [xs.includes(x)] on an array of strings. *)
Definition array_includes (xs : list string) (x : string) : bool :=
  existsb (fun y => y =? x) xs.

(** [category || ''] where [category] is a string or [undefined]. *)
Definition or_empty (category : option string) : string :=
  match category with
  | Some s => if s =? EmptyString then EmptyString else s
  | None => EmptyString
  end.

(** [category!]: the assertion is erased by the compiler. It is evaluated
    only when [category || ''] is in [validCategories], which does not
    hold the empty string, so [category] is a string there. *)
Definition non_null (category : option string) : string :=
  match category with
  | Some s => s
  | None => EmptyString
  end.

Definition categorize_request (description : string) : ChatRequest.t :=
  chat "You are an expense categorization AI. Categorize expenses into one of these categories: Food, Transportation, Entertainment, Shopping, Bills, Healthcare, Other. Respond with only the category name."
       ("Categorize this expense: " ++ dq ++ description ++ dq) 0.1 20.

(** Lines 248-263, after the [await]. *)
Definition categorize_body (completion : ChatCompletion.t) : result string :=
  message <- first_choice_message completion ;;
  let category := option_map trim (Choice.content message) in
  let finalCategory :=
    if array_includes validCategories (or_empty category)
    then non_null category
    else "Other" in
  Ok finalCategory.

(** Lines 264-276, the [catch] block: both branches call the local
    classifier. *)
Definition categorize_handler (description : string) (error : jsval)
  : result string :=
  if is_rate_limit error then Ok (categorizeExpenseLocally description)
  else Ok (categorizeExpenseLocally description).

Definition categorizeExpense (description : string) : Async string :=
  Await (categorize_request description)
    (fun awaited =>
       Settled (try_catch (completion <- awaited ;; categorize_body completion)
                          (categorize_handler description))).

(* ================================================================= *)
(** ** [src/app/actions/suggestCategory.ts] *)

Module Suggestion.
Record t : Type := { category : string; error : option string }.
End Suggestion.

Definition too_short : Suggestion.t :=
  {| Suggestion.category := "Other";
     Suggestion.error := Some "Description too short for analysis" |}.

(** Lines 18-29: what is returned once [categorizeExpense] has resolved. *)
Definition suggestion_of (category : string) : Suggestion.t :=
  if negb (category =? EmptyString) && negb (category =? "Other")
  then {| Suggestion.category := category; Suggestion.error := None |}
  else if category =? "Other"
  then {| Suggestion.category := category; Suggestion.error := None |}
  else {| Suggestion.category := "Other";
          Suggestion.error := Some "Could not determine category" |}.

(** Lines 30-45, the [catch] block. *)
Definition suggest_handler (error : jsval) : Async Suggestion.t :=
  if is_rate_limit error
  then Settled (Ok {| Suggestion.category := "Other";
                      Suggestion.error :=
                        Some "AI service rate limited, using fallback categorization" |})
  else Settled (Ok {| Suggestion.category := "Other";
                      Suggestion.error :=
                        Some "Unable to suggest category at this time" |}).

Definition suggestCategory (description : string) : Async Suggestion.t :=
  async_try
    (if (description =? EmptyString) || (length (trim description) <? 2)%nat
     then Settled (Ok too_short)
     else async_bind (categorizeExpense (trim description))
                     (fun category => Settled (Ok (suggestion_of category))))
    suggest_handler.

(* ================================================================= *)
(** ** The classifier as the specification words it *)

(** The six keyword sets in their priority order. *)
Definition keyword_sets : list (string * list string) :=
  [ ("Food", foodKeywords);
    ("Transportation", transportKeywords);
    ("Entertainment", entertainmentKeywords);
    ("Shopping", shoppingKeywords);
    ("Bills", billsKeywords);
    ("Healthcare", healthcareKeywords) ].

(** Some keyword of the set occurs in the description. *)
Definition set_matches (keywords : list string) (desc : string) : Prop :=
  exists keyword, In keyword keywords /\ is_substring keyword desc.

(** The category of the first set, in the order of [sets], of which a
    keyword occurs in [desc]; ["Other"] when there is none. *)
Fixpoint first_match (sets : list (string * list string)) (desc : string)
  : string :=
  match sets with
  | [] => "Other"
  | (category, keywords) :: rest =>
      if some_included keywords desc then category else first_match rest desc
  end.

Definition classify_spec (description : string) : string :=
  first_match keyword_sets (trim (toLowerCase description)).

(** [r] is the member [m] with blanks added or removed, and nothing else
    changed. *)
Definition differs_only_in_whitespace (r m : string) : Prop :=
  r <> m /\ remove_ws r = remove_ws m.

(** [r] is the member [m] with the case of some letters changed. *)
Definition differs_only_in_casing (r m : string) : Prop :=
  r <> m /\ toLowerCase r = toLowerCase m.

(** A remote service whose call always succeeds with one choice. *)
Definition answering (content : option string) : Remote :=
  fun _ =>
    Ok {| ChatCompletion.choices :=
            [ {| Choice.message := {| Choice.content := content |} |} ] |}.

(** A remote service whose call always fails with [error]. *)
Definition failing (error : jsval) : Remote := fun _ => Throw error.

(** An error carrying the numeric status 429, as the client library
    raises on rate limiting. *)
Definition rate_limit_error : jsval :=
  JObj [ ("name", JStr "RateLimitError"); ("status", JNum (Finite 429)) ].

(** An error without status or code. *)
Definition network_error : jsval := js_error "Error" "Connection error.".

(** [f] applied to a value, a thrown value being passed on. *)
Definition map_result {A B : Type} (f : A -> B) (r : result A) : result B :=
  match r with
  | Ok a => Ok (f a)
  | Throw e => Throw e
  end.

(** A keyword as it is matched: written in lower case, with no blank at
    either end. *)
Definition plain_keyword (k : string) : bool :=
  (toLowerCase k =? k) && first_non_ws k && last_non_ws k.

(** The [try] block of [generateExpenseInsights]: the awaited call and
    the code after it. *)
Definition insights_try (JSON_parse : string -> option jsval)
  (JSON_stringify : list ExpenseSummary.t -> string) (Date_now : nat -> Z)
  (expenses : list ExpenseRecord.t) (create : Remote)
  : result (list AIInsight.t) :=
  completion <- create (insights_request JSON_stringify expenses) ;;
  insights_body JSON_parse Date_now completion.

(** The [try] block of [generateAIAnswer]. *)
Definition answer_try (JSON_stringify : list ExpenseSummary.t -> string)
  (question : string) (context : list ExpenseRecord.t) (create : Remote)
  : result string :=
  completion <- create (answer_request JSON_stringify question context) ;;
  answer_body completion.

(** [null] or [undefined]. *)
Definition is_nullish (v : jsval) : bool :=
  match v with
  | JUndefined | JNull => true
  | _ => false
  end.

(** The insight made from the element [e] found at [index]. *)
Definition formatted (Date_now : nat -> Z) (e : jsval) (index : nat)
  : AIInsight.t :=
  {| AIInsight.id :=
       "ai-" ++ string_of_Z (Date_now index) ++ "-" ++ string_of_nat index;
     AIInsight.type := js_or (get_prop_opt e "type") (JStr "info");
     AIInsight.title := js_or (get_prop_opt e "title") (JStr "AI Insight");
     AIInsight.message :=
       js_or (get_prop_opt e "message") (JStr "Analysis complete");
     AIInsight.action := get_prop_opt e "action";
     AIInsight.confidence :=
       js_or (get_prop_opt e "confidence") (JNum (Finite 0.8)) |}.

(** The remote call succeeds and the content of its first choice is
    [content]: a string, or [None] for [null]. *)
Definition responds (create : Remote) (req : ChatRequest.t)
  (content : option string) : Prop :=
  exists completion message,
    create req = Ok completion
    /\ first_choice_message completion = Ok message
    /\ Choice.content message = content.

(** The insight [i] has the default in each field that the element [e]
    lacks. *)
Definition missing_defaulted (e : jsval) (i : AIInsight.t) : Prop :=
  (get_prop_opt e "type" = JUndefined -> AIInsight.type i = JStr "info")
  /\ (get_prop_opt e "title" = JUndefined ->
      AIInsight.title i = JStr "AI Insight")
  /\ (get_prop_opt e "message" = JUndefined ->
      AIInsight.message i = JStr "Analysis complete")
  /\ (get_prop_opt e "confidence" = JUndefined ->
      AIInsight.confidence i = JNum (Finite 0.8)).

(** The insight [i] has the default in each field whose value in the
    element [e] is falsy, be the field missing or present. *)
Definition falsy_defaulted (e : jsval) (i : AIInsight.t) : Prop :=
  (truthy (get_prop_opt e "type") = false -> AIInsight.type i = JStr "info")
  /\ (truthy (get_prop_opt e "title") = false ->
      AIInsight.title i = JStr "AI Insight")
  /\ (truthy (get_prop_opt e "message") = false ->
      AIInsight.message i = JStr "Analysis complete")
  /\ (truthy (get_prop_opt e "confidence") = false ->
      AIInsight.confidence i = JNum (Finite 0.8)).

(** A payload between an opening fence, with or without the language
    tag, and a closing fence; [w1] and [w2] are the blanks (line breaks)
    that separate the payload from the fences. *)
Definition fenced (lang w1 payload w2 : string) : string :=
  "```" ++ lang ++ w1 ++ payload ++ w2 ++ "```".

(** A stand-in for [JSON.parse] that knows the texts of a table and
    rejects every other text. *)
Definition parse_only (table : list (string * jsval)) (text : string)
  : option jsval :=
  option_map snd (find (fun entry => fst entry =? text) table).

(** Sample platform functions, for running the model on examples: a
    parser that knows two texts, a serializer of the empty list, and a
    clock that stands still. *)
Definition falsy_fields_text : string :=
  "[{" ++ dq ++ "confidence" ++ dq ++ ":0," ++ dq ++ "type" ++ dq ++ ":"
  ++ dq ++ dq ++ "}]".

Definition sample_parse : string -> option jsval :=
  parse_only
    [ ("[{}]", JArr [JObj []]);
      (falsy_fields_text,
       JArr [JObj [("confidence", JNum (Finite 0)); ("type", JStr EmptyString)]]) ].

Definition sample_stringify (_ : list ExpenseSummary.t) : string := "[]".

Definition sample_clock (_ : nat) : Z := 1700000000000.

(** The keywords that hold a keyword of an earlier set, each with the
    category it is listed under; [earlier] collects the keywords of the
    sets already gone through. *)
Fixpoint shadowed (earlier : list string) (sets : list (string * list string))
  : list (string * string) :=
  match sets with
  | [] => []
  | (category, keywords) :: rest =>
      (map (fun k => (k, category))
         (filter (fun k => existsb (fun k' => includes k k') earlier) keywords)
       ++ shadowed (earlier ++ keywords) rest)%list
  end.

(** Every keyword of every set starts and ends with a non-blank. *)
Definition edges_non_ws (sets : list (string * list string)) : bool :=
  forallb (fun set => forallb (fun k => first_non_ws k && last_non_ws k)
                              (snd set)) sets.

(** [s] has no blank at either end. *)
Definition is_trimmed (s : string) : bool :=
  (s =? EmptyString) || (first_non_ws s && last_non_ws s).

(** The character [c] occurs in [s]. *)
Fixpoint occurs (c : ascii) (s : string) : bool :=
  match s with
  | EmptyString => false
  | String a s' => Ascii.eqb a c || occurs c s'
  end.

(** The last character of a string. *)
Fixpoint last_char (s : string) : option ascii :=
  match s with
  | EmptyString => None
  | String c EmptyString => Some c
  | String _ s' => last_char s'
  end.

(** The identifier given to the insight made at [index]. *)
Definition insight_id (Date_now : nat -> Z) (index : nat) : string :=
  "ai-" ++ string_of_Z (Date_now index) ++ "-" ++ string_of_nat index.

(** The insights made from [elements], the first of them at index
    [first]. *)
Fixpoint formatted_from (Date_now : nat -> Z) (first : nat)
  (elements : list jsval) : list AIInsight.t :=
  match elements with
  | [] => []
  | e :: rest =>
      formatted Date_now e first :: formatted_from Date_now (S first) rest
  end.

(** [s] holds no hyphen. *)
Fixpoint no_dash (s : string) : bool :=
  match s with
  | EmptyString => true
  | String c s' => negb (Ascii.eqb c "-") && no_dash s'
  end.

(** The insight [i] holds the truthy fields of the element [e] as they
    are, and its [action] whatever it is. *)
Definition truthy_kept (e : jsval) (i : AIInsight.t) : Prop :=
  AIInsight.action i = get_prop_opt e "action"
  /\ (truthy (get_prop_opt e "type") = true ->
      AIInsight.type i = get_prop_opt e "type")
  /\ (truthy (get_prop_opt e "title") = true ->
      AIInsight.title i = get_prop_opt e "title")
  /\ (truthy (get_prop_opt e "message") = true ->
      AIInsight.message i = get_prop_opt e "message")
  /\ (truthy (get_prop_opt e "confidence") = true ->
      AIInsight.confidence i = get_prop_opt e "confidence").

(** Two expense records that agree on everything but the identifier. *)
Definition same_but_id (a b : ExpenseRecord.t) : Prop :=
  ExpenseRecord.amount a = ExpenseRecord.amount b
  /\ ExpenseRecord.category a = ExpenseRecord.category b
  /\ ExpenseRecord.description a = ExpenseRecord.description b
  /\ ExpenseRecord.date a = ExpenseRecord.date b.

(** A remote answer whose fields are not what an insight should hold: a
    type outside the four kinds and a confidence above 1. *)
Definition unvalidated_text : string :=
  "[{" ++ dq ++ "type" ++ dq ++ ":" ++ dq ++ "danger" ++ dq ++ ","
  ++ dq ++ "confidence" ++ dq ++ ":7}]".

Definition unvalidated_element : jsval :=
  JObj [("type", JStr "danger"); ("confidence", JNum (Finite 7))].

(** The description is empty or its trimmed form has fewer than two
    characters. *)
Definition too_short_for_analysis (description : string) : Prop :=
  description = EmptyString \/ (length (trim description) < 2)%nat.

(* ================================================================= *)
(** * Properties *)

(** ** Strings *)

Section StringFacts.

Lemma app_nil_r (s : string) : s ++ EmptyString = s.
Proof. induction s as [|c s IH]; simpl; [reflexivity | now rewrite IH]. Qed.

Lemma app_assoc (a b c : string) : (a ++ b) ++ c = a ++ (b ++ c).
Proof. induction a as [|x a IH]; simpl; [reflexivity | now rewrite IH]. Qed.

Lemma length_app (a b : string) :
  String.length (a ++ b) = (String.length a + String.length b)%nat.
Proof. induction a as [|x a IH]; simpl; [reflexivity | now rewrite IH]. Qed.

Lemma app_cancel_r (a b p : string) : a ++ p = b ++ p -> a = b.
Proof.
  revert b; induction a as [|x a IH]; intros [|y b] H; simpl in H.
  - reflexivity.
  - apply (f_equal String.length) in H. simpl in H.
    rewrite length_app in H. lia.
  - apply (f_equal String.length) in H. simpl in H.
    rewrite length_app in H. lia.
  - injection H as -> H. f_equal. now apply IH.
Qed.

Lemma startsWith_spec (s p : string) :
  startsWith s p = true <-> exists t, s = p ++ t.
Proof.
  revert s; induction p as [|a p IH]; intros s.
  - split; [intros _; now exists s | intros _; now destruct s].
  - destruct s as [|b s]; simpl.
    + split; [discriminate | intros [t Ht]; discriminate].
    + rewrite andb_true_iff, Ascii.eqb_eq, IH. split.
      * intros [-> [t ->]]. now exists t.
      * intros [t Ht]. injection Ht as -> ->. split; [reflexivity | now exists t].
Qed.

Lemma includes_spec (s k : string) :
  includes s k = true <-> is_substring k s.
Proof.
  unfold is_substring. induction s as [|c s IH].
  - cbn [includes]. rewrite startsWith_spec. split.
    + intros [t Ht]. exists EmptyString, t. exact Ht.
    + intros [pre [post H]]. destruct pre; [|discriminate].
      now exists post.
  - cbn [includes]. rewrite orb_true_iff, startsWith_spec, IH. split.
    + intros [[t Ht] | [pre [post H]]].
      * exists EmptyString, t. exact Ht.
      * exists (String c pre), post. simpl. now rewrite H.
    + intros [[|x pre] [post H]].
      * left. now exists post.
      * right. simpl in H. injection H as -> H. now exists pre, post.
Qed.

Lemma toLowerCase_app (a b : string) :
  toLowerCase (a ++ b) = toLowerCase a ++ toLowerCase b.
Proof. induction a as [|x a IH]; simpl; [reflexivity | now rewrite IH]. Qed.

Lemma is_substring_toLowerCase (k s : string) :
  is_substring k s -> is_substring (toLowerCase k) (toLowerCase s).
Proof.
  intros [pre [post ->]]. exists (toLowerCase pre), (toLowerCase post).
  now rewrite !toLowerCase_app.
Qed.

Lemma trimEnd_cons_non_ws (c : ascii) (s : string) :
  is_ws c = false -> trimEnd (String c s) = String c (trimEnd s).
Proof. intros H. cbn [trimEnd]. rewrite H. now destruct (trimEnd s). Qed.

Lemma trimEnd_app_cons (a : string) (c : ascii) (b : string) :
  is_ws c = false -> trimEnd (a ++ String c b) = a ++ String c (trimEnd b).
Proof.
  intros H. induction a as [|x a IH]; simpl.
  - now apply trimEnd_cons_non_ws.
  - change (trimEnd (String x (a ++ String c b)))
      with (match trimEnd (a ++ String c b) with
            | EmptyString =>
                if is_ws x then EmptyString else String x EmptyString
            | t => String x t
            end).
    rewrite IH. now destruct a.
Qed.

Lemma trimEnd_all_ws (w : string) : all_ws w = true -> trimEnd w = EmptyString.
Proof.
  induction w as [|c w IH]; simpl; [reflexivity|].
  rewrite andb_true_iff. intros [Hc Hw]. now rewrite (IH Hw), Hc.
Qed.

Lemma trimEnd_empty_all_ws (s : string) :
  trimEnd s = EmptyString -> all_ws s = true.
Proof.
  induction s as [|c s IH]; simpl; [reflexivity|].
  destruct (trimEnd s); [|discriminate].
  destruct (is_ws c); [|discriminate]. intros _. now rewrite IH.
Qed.

Lemma trimEnd_app_ws (s w : string) :
  all_ws w = true -> trimEnd (s ++ w) = trimEnd s.
Proof.
  intros H. induction s as [|c s IH]; simpl.
  - now apply trimEnd_all_ws.
  - now rewrite IH.
Qed.

Lemma trimStart_app_ws (w s : string) :
  all_ws w = true -> trimStart (w ++ s) = trimStart s.
Proof.
  induction w as [|c w IH]; simpl; [reflexivity|].
  rewrite andb_true_iff. intros [Hc Hw]. rewrite Hc. now apply IH.
Qed.

Lemma trimStart_app (s t : string) :
  trimStart s <> EmptyString -> trimStart (s ++ t) = trimStart s ++ t.
Proof.
  induction s as [|c s IH]; simpl; [congruence|].
  destruct (is_ws c); [exact IH | reflexivity].
Qed.

Lemma trimStart_first_non_ws (s : string) :
  first_non_ws s = true -> trimStart s = s.
Proof.
  destruct s as [|c s]; simpl; [discriminate|].
  now destruct (is_ws c).
Qed.

Lemma last_non_ws_split (k : string) :
  last_non_ws k = true ->
  exists k0 c, k = k0 ++ String c EmptyString /\ is_ws c = false.
Proof.
  induction k as [|c k IH]; [discriminate|].
  destruct k as [|d k].
  - simpl. intros H. exists EmptyString, c. split; [reflexivity|].
    now destruct (is_ws c).
  - intros H. destruct (IH H) as [k0 [e [Hk He]]].
    exists (String c k0), e. split; [|exact He]. simpl. now rewrite Hk.
Qed.

Lemma is_substring_trimStart (k s : string) :
  first_non_ws k = true -> is_substring k s -> is_substring k (trimStart s).
Proof.
  intros Hk [pre [post ->]]. induction pre as [|c pre IH].
  - simpl. destruct k as [|a k]; [discriminate|]. simpl in *.
    destruct (is_ws a); [discriminate|]. now exists EmptyString, post.
  - simpl. destruct (is_ws c); [exact IH|].
    now exists (String c pre), post.
Qed.

Lemma is_substring_trimEnd (k s : string) :
  last_non_ws k = true -> is_substring k s -> is_substring k (trimEnd s).
Proof.
  intros Hk [pre [post ->]].
  destruct (last_non_ws_split k Hk) as [k0 [c [-> Hc]]].
  exists pre, (trimEnd post).
  rewrite <- !app_assoc. rewrite !(app_assoc (pre ++ k0)). simpl.
  now apply trimEnd_app_cons.
Qed.

Lemma is_substring_trim (k s : string) :
  first_non_ws k = true -> last_non_ws k = true ->
  is_substring k s -> is_substring k (trim s).
Proof.
  intros Hf Hl H. unfold trim.
  now apply is_substring_trimEnd, is_substring_trimStart.
Qed.

End StringFacts.

(** ** The keyword classifier *)

Section Classifier.

Lemma some_included_spec (keywords : list string) (desc : string) :
  some_included keywords desc = true <-> set_matches keywords desc.
Proof.
  unfold some_included, set_matches. rewrite existsb_exists.
  split; intros [k [Hin Hk]]; exists k; split; trivial;
    now apply includes_spec.
Qed.

Lemma some_included_false (keywords : list string) (desc : string) :
  some_included keywords desc = false -> ~ set_matches keywords desc.
Proof.
  intros H M. apply some_included_spec in M. congruence.
Qed.

(** [first_match] returns the category of the first set that matches,
    and ["Other"] exactly when it has gone through all of them. *)
Lemma first_match_spec (sets : list (string * list string)) (desc : string) :
  (exists earlier category keywords later,
      sets = (earlier ++ (category, keywords) :: later)%list
      /\ set_matches keywords desc
      /\ (forall c kws, In (c, kws) earlier -> ~ set_matches kws desc)
      /\ first_match sets desc = category)
  \/ ((forall c kws, In (c, kws) sets -> ~ set_matches kws desc)
      /\ first_match sets desc = "Other").
Proof.
  induction sets as [|[category keywords] rest IH]; simpl.
  - right. split; [intros c kws []|reflexivity].
  - destruct (some_included keywords desc) eqn:E.
    + left. exists [], category, keywords, rest. repeat split.
      * now apply some_included_spec.
      * intros c kws [].
    + apply some_included_false in E.
      destruct IH as [(earlier & c & kws & later & -> & M & N & R) | [N R]].
      * left. exists ((category, keywords) :: earlier), c, kws, later.
        repeat split; trivial.
        intros c' kws' [Heq | Hin]; [injection Heq as <- <-; exact E|].
        now apply (N c').
      * right. split; [|exact R].
        intros c' kws' [Heq | Hin]; [injection Heq as <- <-; exact E|].
        now apply (N c').
Qed.

Lemma classify_refines (description : string) :
  categorizeExpenseLocally description = classify_spec description.
Proof. reflexivity. Qed.

Lemma food_first (description : string) :
  set_matches foodKeywords (trim (toLowerCase description)) ->
  categorizeExpenseLocally description = "Food".
Proof.
  intros M. apply some_included_spec in M.
  unfold categorizeExpenseLocally. cbv zeta. now rewrite M.
Qed.

Lemma plain_keyword_normalized (k written description : string) :
  plain_keyword k = true -> toLowerCase written = k ->
  is_substring written description ->
  is_substring k (trim (toLowerCase description)).
Proof.
  unfold plain_keyword. rewrite !andb_true_iff. intros [[_ Hf] Hl] <- H.
  apply is_substring_trim; trivial. now apply is_substring_toLowerCase.
Qed.

Lemma food_keywords_plain : forallb plain_keyword foodKeywords = true.
Proof. vm_compute. reflexivity. Qed.

(** The classifier only ever returns one of the seven categories. *)
Lemma categorizeExpenseLocally_valid (description : string) :
  In (categorizeExpenseLocally description) validCategories.
Proof.
  unfold categorizeExpenseLocally. cbv zeta.
  repeat match goal with
         | |- context [if ?b then _ else _] => destruct b
         end; simpl; tauto.
Qed.

Example classify_examples :
  categorizeExpenseLocally "Started my day with a latte at Starbucks" = "Food"
  /\ categorizeExpenseLocally "STARBUCKS" = "Food"
  /\ categorizeExpenseLocally "starbucks" = "Food"
  /\ categorizeExpenseLocally "Dinner at a restaurant" = "Food"
  /\ categorizeExpenseLocally "Monthly gas bill" = "Transportation"
  /\ categorizeExpenseLocally "Netflix" = "Entertainment"
  /\ categorizeExpenseLocally "New shoes" = "Shopping"
  /\ categorizeExpenseLocally "Water" = "Bills"
  /\ categorizeExpenseLocally "Dentist" = "Healthcare"
  /\ categorizeExpenseLocally "Something else" = "Other".
Proof. repeat split; reflexivity. Qed.

(** C3. [categorizeExpenseLocally] lower-cases and trims the description
    and returns the category of the first keyword set, in the order
    Food, Transportation, Entertainment, Shopping, Bills, Healthcare, of
    which some keyword occurs in the normalized description, and
    ["Other"] when no keyword of any set occurs. Hence a description in
    which a Food keyword occurs (as in the table or in another casing) is
    ["Food"] whatever else occurs in it, for instance ["restaurant"]
    together with ["bill"]; and the empty string and the string of three
    spaces are ["Other"]. *)
Theorem classify_first_matching_set (description : string) :
  let desc := trim (toLowerCase description) in
  categorizeExpenseLocally description = classify_spec description
  /\ ((exists earlier category keywords later,
          keyword_sets = (earlier ++ (category, keywords) :: later)%list
          /\ set_matches keywords desc
          /\ (forall c kws, In (c, kws) earlier -> ~ set_matches kws desc)
          /\ categorizeExpenseLocally description = category)
      \/ ((forall c kws, In (c, kws) keyword_sets -> ~ set_matches kws desc)
          /\ categorizeExpenseLocally description = "Other"))
  /\ (forall food, In food foodKeywords -> is_substring food desc ->
                   categorizeExpenseLocally description = "Food")
  /\ (forall food written,
         In food foodKeywords -> toLowerCase written = food ->
         is_substring written description ->
         categorizeExpenseLocally description = "Food")
  /\ (is_substring "restaurant" description ->
      is_substring "bill" description ->
      categorizeExpenseLocally description = "Food")
  /\ categorizeExpenseLocally EmptyString = "Other"
  /\ categorizeExpenseLocally "   " = "Other".
Proof.
  intros desc.
  assert (Hfood : forall food written,
             In food foodKeywords -> toLowerCase written = food ->
             is_substring written description ->
             categorizeExpenseLocally description = "Food").
  { intros food written Hin Hlow Hsub. apply food_first. exists food.
    split; [exact Hin|].
    apply (plain_keyword_normalized food written); trivial.
    exact (proj1 (forallb_forall _ _) food_keywords_plain food Hin). }
  split; [apply classify_refines|].
  split; [rewrite classify_refines; apply first_match_spec|].
  split; [intros food Hin Hsub; apply food_first; now exists food|].
  split; [exact Hfood|].
  split; [|split; reflexivity].
  intros Hr _. apply (Hfood "restaurant" "restaurant"); trivial.
  simpl; tauto.
Qed.

(** An instance of C3: a description naming a restaurant and a bill. *)
Lemma classify_first_matching_set_witness :
  is_substring "restaurant" "restaurant bill"
  /\ is_substring "bill" "restaurant bill"
  /\ categorizeExpenseLocally "restaurant bill" = "Food".
Proof.
  assert (Hr : is_substring "restaurant" "restaurant bill")
    by (exists EmptyString, " bill"; reflexivity).
  assert (Hb : is_substring "bill" "restaurant bill")
    by (exists "restaurant ", EmptyString; reflexivity).
  split; [exact Hr|]. split; [exact Hb|].
  exact (proj1 (proj2 (proj2 (proj2 (proj2
           (classify_first_matching_set "restaurant bill"))))) Hr Hb).
Defined.

End Classifier.

(** ** [categorizeExpense] *)

Section Categorize.

Lemma Ok_inj {A : Type} (a b : A) : Ok a = Ok b -> a = b.
Proof. intros H. now injection H. Qed.

Lemma array_includes_spec (xs : list string) (x : string) :
  array_includes xs x = true <-> In x xs.
Proof.
  unfold array_includes. rewrite existsb_exists. split.
  - intros [y [Hin Hy]]. apply String.eqb_eq in Hy. now subst.
  - intros Hin. exists x. split; [exact Hin | apply String.eqb_refl].
Qed.

Lemma array_includes_false (xs : list string) (x : string) :
  ~ In x xs -> array_includes xs x = false.
Proof.
  intros H. destruct (array_includes xs x) eqn:E; [|reflexivity].
  now apply array_includes_spec in E.
Qed.

(** The value of [finalCategory]: [category!] is reached with a string
    only, and that string is a member of [validCategories]. *)
Lemma final_category (category : option string) :
  (if array_includes validCategories (or_empty category)
   then non_null category else "Other")
  = match category with
    | Some s => if array_includes validCategories s then s else "Other"
    | None => "Other"
    end.
Proof.
  destruct category as [s|]; [|reflexivity]. simpl or_empty. simpl non_null.
  destruct (String.eqb_spec s EmptyString) as [->|_]; reflexivity.
Qed.

Lemma outcome_categorize (create : Remote) (description : string) :
  outcome create (categorizeExpense description)
  = try_catch (completion <- create (categorize_request description) ;;
               categorize_body completion)
              (categorize_handler description).
Proof.
  unfold outcome, categorizeExpense. simpl. reflexivity.
Qed.

Lemma categorize_handler_local (description : string) (error : jsval) :
  categorize_handler description error
  = Ok (categorizeExpenseLocally description).
Proof. unfold categorize_handler. now destruct (is_rate_limit error). Qed.

Lemma answering_responds (content : option string) (req : ChatRequest.t) :
  responds (answering content) req content.
Proof. eexists. eexists. split; [reflexivity|]. split; reflexivity. Qed.

(** The result on the path where the remote call succeeds. *)
Lemma outcome_responds (create : Remote) (description : string)
  (content : option string) :
  responds create (categorize_request description) content ->
  outcome create (categorizeExpense description)
  = Ok match option_map trim content with
       | Some s => if array_includes validCategories s then s else "Other"
       | None => "Other"
       end.
Proof.
  intros [completion [message [C [M Hc]]]].
  rewrite outcome_categorize, C. unfold categorize_body.
  cbn [bind]. rewrite M. cbn [bind try_catch]. rewrite Hc.
  now rewrite final_category.
Qed.

Lemma categorize_body_valid (completion : ChatCompletion.t) (c : string) :
  categorize_body completion = Ok c -> In c validCategories.
Proof.
  unfold categorize_body.
  destruct (first_choice_message completion) as [message|e]; cbn [bind];
    [|discriminate].
  rewrite final_category. intros H. apply Ok_inj in H. subst c.
  destruct (option_map trim (Choice.content message)) as [s|];
    [|simpl; auto 10].
  destruct (array_includes validCategories s) eqn:E; [|simpl; auto 10].
  now apply array_includes_spec.
Qed.

(** Whatever the remote service does, [categorizeExpense] resolves, and
    with one of the seven categories. *)
Lemma categorizeExpense_valid (create : Remote) (description : string) :
  exists category,
    outcome create (categorizeExpense description) = Ok category
    /\ In category validCategories.
Proof.
  rewrite outcome_categorize.
  destruct (create (categorize_request description)) as [completion|error];
    cbn [bind try_catch].
  - destruct (categorize_body completion) as [c|e] eqn:E; cbn [try_catch].
    + exists c. split; [reflexivity | now apply (categorize_body_valid completion)].
    + rewrite categorize_handler_local. eexists. split; [reflexivity|].
      apply categorizeExpenseLocally_valid.
  - rewrite categorize_handler_local. eexists. split; [reflexivity|].
    apply categorizeExpenseLocally_valid.
Qed.

(** No member of [validCategories] holds a blank or a capital letter
    other than as written, so a string with the same letters up to case,
    or the same characters up to blanks, that is itself a member is that
    very member. *)
Lemma member_by_letters (m m' : string) :
  In m validCategories -> In m' validCategories ->
  toLowerCase m' = toLowerCase m -> m' = m.
Proof.
  simpl. intros Hm Hm'.
  repeat (destruct Hm as [<-|Hm]; [|]); try contradiction;
    repeat (destruct Hm' as [<-|Hm']; [|]); try contradiction;
    intros H; try reflexivity; discriminate H.
Qed.

Lemma member_by_non_blanks (m m' : string) :
  In m validCategories -> In m' validCategories ->
  remove_ws m' = remove_ws m -> m' = m.
Proof.
  simpl. intros Hm Hm'.
  repeat (destruct Hm as [<-|Hm]; [|]); try contradiction;
    repeat (destruct Hm' as [<-|Hm']; [|]); try contradiction;
    intros H; try reflexivity; discriminate H.
Qed.

(** C1. Whenever the remote call of [categorizeExpense] fails, with any
    error, the result is the category the local keyword classifier gives
    to the same description; a rate-limit error during the
    categorization of ["Dinner at a restaurant"] gives ["Food"], as the
    classifier does. *)
Theorem categorize_falls_back_to_classifier :
  (forall (description : string) (create : Remote) (error : jsval),
      create (categorize_request description) = Throw error ->
      outcome create (categorizeExpense description)
      = Ok (categorizeExpenseLocally description))
  /\ is_rate_limit rate_limit_error = true
  /\ outcome (failing rate_limit_error)
             (categorizeExpense "Dinner at a restaurant") = Ok "Food"
  /\ categorizeExpenseLocally "Dinner at a restaurant" = "Food".
Proof.
  split; [|repeat split].
  intros description create error H.
  rewrite outcome_categorize, H. cbn [bind try_catch].
  apply categorize_handler_local.
Qed.

(** An instance of C1: the call fails with an error that carries no
    status. *)
Lemma categorize_falls_back_to_classifier_witness :
  failing network_error (categorize_request "Taxi to the airport")
  = Throw network_error
  /\ outcome (failing network_error) (categorizeExpense "Taxi to the airport")
     = Ok "Transportation".
Proof.
  split; [reflexivity|].
  exact (proj1 categorize_falls_back_to_classifier
           "Taxi to the airport" (failing network_error) network_error
           eq_refl).
Defined.

(** C4, as the code has it. On remote success the trimmed content is
    compared with the seven category names, character for character: a
    content whose trimmed form is a member gives that member (so
    ["Food"], and also [" Food "], give ["Food"]); any other content
    gives ["Other"], in particular one whose trimmed form differs from a
    member in casing (["food"]) or in blanks inside the name, and
    ["Groceries"]; an absent content gives ["Other"]. *)
Theorem categorize_validates_trimmed_response
  (description : string) (create : Remote) :
  (forall response,
      responds create (categorize_request description) (Some response) ->
      In (trim response) validCategories ->
      outcome create (categorizeExpense description) = Ok (trim response))
  /\ (forall response,
         responds create (categorize_request description) (Some response) ->
         ~ In (trim response) validCategories ->
         outcome create (categorizeExpense description) = Ok "Other")
  /\ (forall response member,
         responds create (categorize_request description) (Some response) ->
         In member validCategories ->
         differs_only_in_casing (trim response) member ->
         outcome create (categorizeExpense description) = Ok "Other")
  /\ (forall response member,
         responds create (categorize_request description) (Some response) ->
         In member validCategories ->
         differs_only_in_whitespace (trim response) member ->
         outcome create (categorizeExpense description) = Ok "Other")
  /\ (responds create (categorize_request description) None ->
      outcome create (categorizeExpense description) = Ok "Other")
  /\ (responds create (categorize_request description) (Some "Food") ->
      outcome create (categorizeExpense description) = Ok "Food")
  /\ (responds create (categorize_request description) (Some " Food ") ->
      outcome create (categorizeExpense description) = Ok "Food")
  /\ (responds create (categorize_request description) (Some "Groceries") ->
      outcome create (categorizeExpense description) = Ok "Other")
  /\ (responds create (categorize_request description) (Some "food") ->
      outcome create (categorizeExpense description) = Ok "Other").
Proof.
  assert (Hout : forall response,
             responds create (categorize_request description) (Some response) ->
             ~ In (trim response) validCategories ->
             outcome create (categorizeExpense description) = Ok "Other").
  { intros response R H. rewrite (outcome_responds _ _ _ R). cbn [option_map].
    now rewrite (array_includes_false _ _ H). }
  split.
  { intros response R H. rewrite (outcome_responds _ _ _ R). cbn [option_map].
    now rewrite (proj2 (array_includes_spec _ _) H). }
  split; [exact Hout|].
  split.
  { intros response member R Hm [Hneq Hlow]. apply (Hout response R).
    intros Hr. apply Hneq. now apply member_by_letters. }
  split.
  { intros response member R Hm [Hneq Hws]. apply (Hout response R).
    intros Hr. apply Hneq. now apply member_by_non_blanks. }
  repeat split; intros R; now rewrite (outcome_responds _ _ _ R).
Qed.

(** An instance of C4 as amended: ["food"] differs from ["Food"] in
    casing only. *)
Lemma categorize_validates_trimmed_response_witness :
  responds (answering (Some "food")) (categorize_request "Dinner") (Some "food")
  /\ In "Food" validCategories
  /\ differs_only_in_casing (trim "food") "Food"
  /\ outcome (answering (Some "food")) (categorizeExpense "Dinner") = Ok "Other".
Proof.
  assert (R : responds (answering (Some "food")) (categorize_request "Dinner")
                (Some "food")).
  { eexists. eexists. split; [reflexivity|]. split; reflexivity. }
  assert (Hm : In "Food" validCategories) by (simpl; tauto).
  assert (Hd : differs_only_in_casing (trim "food") "Food")
    by (split; [discriminate | reflexivity]).
  split; [exact R|]. split; [exact Hm|]. split; [exact Hd|].
  exact (proj1 (proj2 (proj2 (categorize_validates_trimmed_response "Dinner"
                                (answering (Some "food")))))
           "food" "Food" R Hm Hd).
Defined.

(** C4 as stated fails: [" Food"] differs from the member ["Food"] in
    whitespace only, and it is accepted, the result being ["Food"] and
    not ["Other"]. *)
Lemma categorize_accepts_padded_member :
  In "Food" validCategories
  /\ differs_only_in_whitespace " Food" "Food"
  /\ responds (answering (Some " Food")) (categorize_request "Dinner")
       (Some " Food")
  /\ outcome (answering (Some " Food")) (categorizeExpense "Dinner") = Ok "Food"
  /\ outcome (answering (Some " Food")) (categorizeExpense "Dinner")
     <> Ok "Other".
Proof.
  split; [simpl; tauto|].
  split; [split; [discriminate | reflexivity]|].
  split; [apply answering_responds|].
  split; [reflexivity | discriminate].
Qed.

(** C5. On every path of [categorizeExpense] (the remote call succeeds,
    it fails with a rate-limit error, it fails otherwise, or the code
    after it throws) and for every description, the returned value is
    one of Food, Transportation, Entertainment, Shopping, Bills,
    Healthcare, Other; so is the value of [categorizeExpenseLocally];
    and a remote value outside the set becomes ["Other"]. *)
Theorem category_in_closed_set (description : string) (create : Remote) :
  (exists category,
      outcome create (categorizeExpense description) = Ok category
      /\ In category validCategories)
  /\ In (categorizeExpenseLocally description) validCategories
  /\ (forall response,
         responds create (categorize_request description) (Some response) ->
         ~ In (trim response) validCategories ->
         outcome create (categorizeExpense description) = Ok "Other").
Proof.
  split; [apply categorizeExpense_valid|].
  split; [apply categorizeExpenseLocally_valid|].
  intros response R H. rewrite (outcome_responds _ _ _ R). cbn [option_map].
  now rewrite (array_includes_false _ _ H).
Qed.

(** An instance of C5: a remote answer that is not a category. *)
Lemma category_in_closed_set_witness :
  responds (answering (Some "Groceries")) (categorize_request "Weekly shop")
    (Some "Groceries")
  /\ ~ In (trim "Groceries") validCategories
  /\ outcome (answering (Some "Groceries")) (categorizeExpense "Weekly shop")
     = Ok "Other".
Proof.
  assert (R : responds (answering (Some "Groceries"))
                (categorize_request "Weekly shop") (Some "Groceries")).
  { eexists. eexists. split; [reflexivity|]. split; reflexivity. }
  assert (H : ~ In (trim "Groceries") validCategories).
  { simpl. intros H.
    repeat (destruct H as [H|H]; [discriminate H|]). exact H. }
  split; [exact R|]. split; [exact H|].
  exact (proj2 (proj2 (category_in_closed_set "Weekly shop"
                         (answering (Some "Groceries"))))
           "Groceries" R H).
Defined.

End Categorize.

(** ** Removing a code fence *)

Section Fences.

Lemma all_ws_app (a b : string) : all_ws (a ++ b) = all_ws a && all_ws b.
Proof.
  induction a as [|c a IH]; simpl; [reflexivity|].
  now rewrite IH, andb_assoc.
Qed.

Lemma all_ws_then_unfold (p s : string) :
  all_ws_then p s
  = (s =? p) || match s with
                | EmptyString => false
                | String c s' => is_ws c && all_ws_then p s'
                end.
Proof. now destruct s. Qed.

Lemma replace_ws_suffix_unfold (p s : string) :
  replace_ws_suffix p s
  = if all_ws_then p s then EmptyString
    else match s with
         | EmptyString => EmptyString
         | String c s' => String c (replace_ws_suffix p s')
         end.
Proof. now destruct s. Qed.

(** [all_ws_then p] recognizes the strings made of blanks followed by
    [p]. *)
Lemma all_ws_then_spec (p s : string) :
  all_ws_then p s = true <-> exists w, all_ws w = true /\ s = w ++ p.
Proof.
  induction s as [|c s IH]; rewrite all_ws_then_unfold, orb_true_iff.
  - split.
    + intros [H | H]; [|discriminate]. apply String.eqb_eq in H.
      exists EmptyString. split; [reflexivity | exact H].
    + intros [[|a w] [_ H]]; [|discriminate]. left.
      simpl in H. subst p. reflexivity.
  - rewrite andb_true_iff, IH. split.
    + intros [H | [Hc [w [Hw ->]]]].
      * apply String.eqb_eq in H. exists EmptyString.
        split; [reflexivity | exact H].
      * exists (String c w). split; [simpl; now rewrite Hc, Hw | reflexivity].
    + intros [[|a w] [Hw H]].
      * left. simpl in H. subst p. apply String.eqb_refl.
      * right. simpl in H, Hw. injection H as -> ->.
        apply andb_true_iff in Hw as [Ha Hw].
        split; [exact Ha | now exists w].
Qed.

Lemma all_ws_then_app (p x w : string) :
  all_ws w = true -> all_ws_then p (x ++ w ++ p) = all_ws x.
Proof.
  intros Hw. apply eq_true_iff_eq. rewrite all_ws_then_spec. split.
  - intros [v [Hv H]]. rewrite <- app_assoc in H.
    apply app_cancel_r in H. subst v.
    rewrite all_ws_app in Hv. now apply andb_true_iff in Hv.
  - intros Hx. exists (x ++ w). split.
    + now rewrite all_ws_app, Hx, Hw.
    + now rewrite app_assoc.
Qed.

(** Removing [\s*p$] from a string that ends with blanks and [p]
    leaves what precedes them, without its own trailing blanks. *)
Lemma replace_ws_suffix_spec (p s w : string) :
  all_ws w = true -> replace_ws_suffix p (s ++ w ++ p) = trimEnd s.
Proof.
  intros Hw. induction s as [|c s IH].
  - rewrite replace_ws_suffix_unfold.
    now rewrite (all_ws_then_app p EmptyString w Hw).
  - rewrite replace_ws_suffix_unfold.
    rewrite (all_ws_then_app p (String c s) w Hw).
    destruct (all_ws (String c s)) eqn:E.
    + symmetry. now apply trimEnd_all_ws.
    + change (String c s ++ w ++ p) with (String c (s ++ w ++ p)).
      cbv iota. rewrite IH. simpl in E.
      destruct (is_ws c) eqn:Hc.
      * simpl in E. cbn [trimEnd]. destruct (trimEnd s) eqn:T; [|reflexivity].
        apply trimEnd_empty_all_ws in T. congruence.
      * symmetry. now apply trimEnd_cons_non_ws.
Qed.

Lemma last_non_ws_app_r (a b : string) :
  last_non_ws b = true -> last_non_ws (a ++ b) = true.
Proof.
  intros H. induction a as [|c a IH]; [exact H|].
  simpl. destruct (a ++ b) eqn:E; [|exact IH].
  destruct a; simpl in E; [subst b|]; discriminate.
Qed.

Lemma trimEnd_last_non_ws (s : string) :
  last_non_ws s = true -> trimEnd s = s.
Proof.
  intros H. destruct (last_non_ws_split s H) as [k0 [c [-> Hc]]].
  now rewrite trimEnd_app_cons.
Qed.

(** Blanks around a string that starts and ends with a non-blank are
    what [trim] removes. *)
Lemma trim_padded (o1 s o2 : string) :
  all_ws o1 = true -> all_ws o2 = true ->
  first_non_ws s = true -> last_non_ws s = true ->
  trim (o1 ++ s ++ o2) = s.
Proof.
  intros H1 H2 Hf Hl. unfold trim.
  rewrite (trimStart_app_ws o1 _ H1).
  rewrite trimStart_app
    by (rewrite (trimStart_first_non_ws s Hf); destruct s; [discriminate | congruence]).
  rewrite (trimStart_first_non_ws s Hf).
  rewrite (trimEnd_app_ws s o2 H2). now apply trimEnd_last_non_ws.
Qed.

Lemma starts_with_bracket (payload : string) :
  startsWith (trimStart payload) "[" = true ->
  exists rest, trimStart payload = String "["%char rest.
Proof.
  intros H. apply startsWith_spec in H as [t Ht]. now exists t.
Qed.

(** A fenced string is left untouched by [trim], blanks around it
    apart. *)
Lemma trim_fenced (o1 lang w1 payload w2 o2 : string) :
  all_ws o1 = true -> all_ws o2 = true ->
  trim (o1 ++ fenced lang w1 payload w2 ++ o2) = fenced lang w1 payload w2.
Proof.
  intros H1 H2. apply trim_padded; trivial.
  unfold fenced. rewrite <- !app_assoc. now apply last_non_ws_app_r.
Qed.

(** What follows the opening fence, once the blanks after it are gone. *)
Lemma after_opening (w1 payload rest : string) :
  all_ws w1 = true -> trimStart payload <> EmptyString ->
  trimStart (w1 ++ payload ++ rest) = trimStart payload ++ rest.
Proof.
  intros H1 Hp. rewrite (trimStart_app_ws w1 _ H1). now apply trimStart_app.
Qed.

Lemma no_language_tag (w1 payload rest : string) :
  all_ws w1 = true -> startsWith (trimStart payload) "[" = true ->
  startsWith (w1 ++ payload ++ rest) "json" = false.
Proof.
  intros H1 Hp. destruct w1 as [|c w1].
  - destruct payload as [|c payload]; [discriminate Hp|].
    cbn [append startsWith]. destruct (Ascii.eqb_spec "j"%char c) as [<-|_];
      [|reflexivity].
    simpl in Hp. discriminate Hp.
  - cbn [append startsWith]. destruct (Ascii.eqb_spec "j"%char c) as [<-|_];
      [|reflexivity].
    simpl in H1. discriminate H1.
Qed.

Lemma clean_unfenced (payload : string) :
  startsWith (trimStart payload) "[" = true ->
  clean_response payload = trim payload.
Proof.
  intros H. destruct (starts_with_bracket payload H) as [rest E].
  unfold clean_response, trim. rewrite E.
  rewrite trimEnd_cons_non_ws by reflexivity. reflexivity.
Qed.

Lemma starts_with_json_fence (x : string) :
  startsWith ("```json" ++ x) "```json" = true.
Proof. reflexivity. Qed.

Lemma starts_with_plain_fence (x : string) :
  startsWith ("```" ++ x) "```" = true.
Proof. reflexivity. Qed.

Lemma plain_fence_language (x : string) :
  startsWith ("```" ++ x) "```json" = startsWith x "json".
Proof. reflexivity. Qed.

Lemma strip_json_fence (x : string) :
  strip_fence "```json" ("```json" ++ x)
  = replace_ws_suffix "```" (trimStart x).
Proof. reflexivity. Qed.

Lemma strip_plain_fence (x : string) :
  strip_fence "```" ("```" ++ x) = replace_ws_suffix "```" (trimStart x).
Proof. reflexivity. Qed.

Lemma clean_fenced (lang o1 w1 payload w2 o2 : string) :
  lang = "json" \/ lang = EmptyString ->
  all_ws o1 = true -> all_ws w1 = true ->
  all_ws w2 = true -> all_ws o2 = true ->
  startsWith (trimStart payload) "[" = true ->
  clean_response (o1 ++ fenced lang w1 payload w2 ++ o2) = trim payload.
Proof.
  intros Hlang Ho1 Hw1 Hw2 Ho2 Hp. unfold clean_response.
  rewrite (trim_fenced o1 lang w1 payload w2 o2 Ho1 Ho2).
  assert (Hne : trimStart payload <> EmptyString).
  { destruct (starts_with_bracket payload Hp) as [rest ->]. discriminate. }
  destruct Hlang as [-> | ->].
  - change (fenced "json" w1 payload w2)
      with ("```json" ++ (w1 ++ payload ++ w2 ++ "```")).
    rewrite starts_with_json_fence, strip_json_fence.
    rewrite (after_opening w1 payload _ Hw1 Hne).
    now rewrite replace_ws_suffix_spec.
  - change (fenced EmptyString w1 payload w2)
      with ("```" ++ (w1 ++ payload ++ w2 ++ "```")).
    rewrite plain_fence_language, (no_language_tag w1 payload _ Hw1 Hp).
    rewrite starts_with_plain_fence, strip_plain_fence.
    rewrite (after_opening w1 payload _ Hw1 Hne).
    now rewrite replace_ws_suffix_spec.
Qed.

End Fences.

(** ** [generateExpenseInsights] *)

Section Insights.

Variable JSON_parse : string -> option jsval.
Variable JSON_stringify : list ExpenseSummary.t -> string.

Lemma Throw_inj {A : Type} (a b : jsval) : @Throw A a = Throw b -> a = b.
Proof. intros H. now injection H. Qed.

Lemma outcome_insights (Date_now : nat -> Z) (expenses : list ExpenseRecord.t)
  (create : Remote) :
  outcome create
    (generateExpenseInsights JSON_parse JSON_stringify Date_now expenses)
  = try_catch (insights_try JSON_parse JSON_stringify Date_now expenses create)
              insights_handler.
Proof. reflexivity. Qed.

(** The callback throws on [null] and [undefined], and formats every
    other element. *)
Lemma format_insight_spec (Date_now : nat -> Z) (e : jsval) (index : nat) :
  format_insight Date_now e index
  = if is_nullish e
    then Throw (TypeError "Cannot read properties of null or undefined")
    else Ok (formatted Date_now e index).
Proof. destruct e; reflexivity. Qed.

Lemma map_indexed_ok (Date_now : nat -> Z) (elements : list jsval) :
  forall (first : nat) (insights : list AIInsight.t),
    map_indexed (format_insight Date_now) first elements = Ok insights ->
    Forall2 (fun e i => is_nullish e = false
                        /\ exists index, i = formatted Date_now e index)
            elements insights.
Proof.
  induction elements as [|x rest IH]; intros first insights H.
  - cbn [map_indexed] in H. apply Ok_inj in H. subst insights. constructor.
  - cbn [map_indexed bind] in H. rewrite format_insight_spec in H.
    destruct (is_nullish x) eqn:Nx; [discriminate H|]. cbn [bind] in H.
    destruct (map_indexed (format_insight Date_now) (S first) rest)
      as [ys|err] eqn:R; [|discriminate H].
    cbn [bind] in H. apply Ok_inj in H. subst insights.
    constructor; [split; [exact Nx | now exists first]|].
    now apply (IH (S first)).
Qed.

Lemma map_indexed_total (Date_now : nat -> Z) (elements : list jsval) :
  forallb (fun e => negb (is_nullish e)) elements = true ->
  forall first, exists insights,
    map_indexed (format_insight Date_now) first elements = Ok insights.
Proof.
  induction elements as [|x rest IH]; intros H first.
  - now exists [].
  - cbn [forallb] in H. apply andb_true_iff in H as [Hx Hrest].
    destruct (IH Hrest (S first)) as [ys Hys].
    exists (formatted Date_now x first :: ys).
    cbn [map_indexed]. rewrite format_insight_spec.
    destruct (is_nullish x); [discriminate Hx|].
    cbn [bind]. now rewrite Hys.
Qed.

(** An array without [null] elements is formatted element by element,
    each with its index. *)
Lemma map_indexed_non_null (Date_now : nat -> Z) (elements : list jsval) :
  forallb (fun e => negb (is_nullish e)) elements = true ->
  forall first,
    map_indexed (format_insight Date_now) first elements
    = Ok (formatted_from Date_now first elements).
Proof.
  induction elements as [|x rest IH]; intros H first; [reflexivity|].
  cbn [forallb] in H. apply andb_true_iff in H as [Hx Hrest].
  cbn [map_indexed formatted_from]. rewrite format_insight_spec.
  destruct (is_nullish x); [discriminate Hx|].
  cbn [bind]. now rewrite (IH Hrest (S first)).
Qed.

Lemma map_indexed_throw (Date_now : nat -> Z) (elements : list jsval) :
  forall first error,
    map_indexed (format_insight Date_now) first elements = Throw error ->
    is_rate_limit error = false.
Proof.
  induction elements as [|x rest IH]; intros first error H.
  - discriminate H.
  - cbn [map_indexed] in H. rewrite format_insight_spec in H.
    destruct (is_nullish x).
    + cbn [bind] in H. apply Throw_inj in H. now subst error.
    + cbn [bind] in H.
      destruct (map_indexed (format_insight Date_now) (S first) rest)
        as [ys|err] eqn:R; [discriminate H|].
      cbn [bind] in H. apply Throw_inj in H. subst err. now apply (IH (S first)).
Qed.

(** The fields other than the identifier do not depend on the clock. *)
Lemma map_indexed_fields (now1 now2 : nat -> Z) (elements : list jsval) :
  forall first,
    map_result (map AIInsight.fields)
      (map_indexed (format_insight now1) first elements)
    = map_result (map AIInsight.fields)
        (map_indexed (format_insight now2) first elements).
Proof.
  induction elements as [|x rest IH]; intros first; [reflexivity|].
  cbn [map_indexed]. rewrite !format_insight_spec.
  destruct (is_nullish x); [reflexivity|]. cbn [bind].
  specialize (IH (S first)).
  destruct (map_indexed (format_insight now1) (S first) rest);
    destruct (map_indexed (format_insight now2) (S first) rest);
    cbn [bind map_result map] in *; try discriminate IH.
  - apply Ok_inj in IH. now rewrite IH.
  - exact IH.
Qed.

Lemma insights_body_inv (Date_now : nat -> Z) (completion : ChatCompletion.t)
  (insights : list AIInsight.t) :
  insights_body JSON_parse Date_now completion = Ok insights ->
  exists message response elements,
    first_choice_message completion = Ok message
    /\ Choice.content message = Some response
    /\ JSON_parse (clean_response response) = Some (JArr elements)
    /\ map_indexed (format_insight Date_now) 0 elements = Ok insights.
Proof.
  unfold insights_body.
  destruct (first_choice_message completion) as [message|e]; cbn [bind];
    [|discriminate].
  destruct (Choice.content message) as [response|] eqn:C; [|discriminate].
  destruct (response =? EmptyString); [discriminate|].
  destruct (JSON_parse (clean_response response)) as [parsed|] eqn:P;
    [|discriminate].
  intros H. exists message, response. destruct parsed; try discriminate H.
  now exists elements.
Qed.

(** An error thrown by the code after the [await] has neither status
    nor code 429. *)
Lemma insights_body_throw (Date_now : nat -> Z) (completion : ChatCompletion.t)
  (error : jsval) :
  insights_body JSON_parse Date_now completion = Throw error ->
  is_rate_limit error = false.
Proof.
  unfold insights_body, first_choice_message.
  destruct (ChatCompletion.choices completion) as [|choice rest]; cbn [bind].
  { intros H. apply Throw_inj in H. now subst error. }
  destruct (Choice.content (Choice.message choice)) as [response|].
  2:{ intros H. apply Throw_inj in H. now subst error. }
  destruct (response =? EmptyString).
  { intros H. apply Throw_inj in H. now subst error. }
  destruct (JSON_parse (clean_response response)) as [parsed|].
  2:{ intros H. apply Throw_inj in H. now subst error. }
  destruct parsed; cbn [format_insights];
    try (intros H; apply Throw_inj in H; now subst error).
  apply map_indexed_throw.
Qed.

(** On the path where the [try] block completes, the insights are the
    elements of the parsed array, formatted one by one. *)
Lemma insights_try_success (Date_now : nat -> Z)
  (expenses : list ExpenseRecord.t) (create : Remote)
  (insights : list AIInsight.t) :
  insights_try JSON_parse JSON_stringify Date_now expenses create = Ok insights ->
  exists response elements,
    responds create (insights_request JSON_stringify expenses) (Some response)
    /\ JSON_parse (clean_response response) = Some (JArr elements)
    /\ Forall2 (fun e i => is_nullish e = false
                           /\ exists index, i = formatted Date_now e index)
               elements insights.
Proof.
  unfold insights_try.
  destruct (create (insights_request JSON_stringify expenses))
    as [completion|err] eqn:C; cbn [bind]; [|discriminate].
  intros H.
  destruct (insights_body_inv _ _ _ H)
    as [message [response [elements [Hm [Hc [P M]]]]]].
  exists response, elements. split; [now exists completion, message|].
  split; [exact P|]. exact (map_indexed_ok Date_now elements 0 insights M).
Qed.

(** The result on the path where the remote call succeeds with a
    content that is not empty. *)
Lemma outcome_insights_responds (Date_now : nat -> Z)
  (expenses : list ExpenseRecord.t) (create : Remote) (response : string) :
  responds create (insights_request JSON_stringify expenses) (Some response) ->
  response <> EmptyString ->
  outcome create
    (generateExpenseInsights JSON_parse JSON_stringify Date_now expenses)
  = try_catch
      match JSON_parse (clean_response response) with
      | None => Throw (SyntaxError "Unexpected token in JSON")
      | Some insights => format_insights Date_now insights
      end insights_handler.
Proof.
  intros [completion [message [C [M Hc]]]] Hr.
  rewrite outcome_insights. unfold insights_try. rewrite C. cbn [bind].
  unfold insights_body. rewrite M. cbn [bind]. rewrite Hc.
  now rewrite (proj2 (String.eqb_neq _ _) Hr).
Qed.

(** The [try] block completes when the content parses to an array
    without [null] elements. *)
Lemma insights_try_total (Date_now : nat -> Z)
  (expenses : list ExpenseRecord.t) (create : Remote)
  (response : string) (elements : list jsval) :
  responds create (insights_request JSON_stringify expenses) (Some response) ->
  response <> EmptyString ->
  JSON_parse (clean_response response) = Some (JArr elements) ->
  forallb (fun e => negb (is_nullish e)) elements = true ->
  exists insights,
    insights_try JSON_parse JSON_stringify Date_now expenses create
    = Ok insights.
Proof.
  intros [completion [message [C [M Hc]]]] Hr P N.
  unfold insights_try. rewrite C. cbn [bind].
  unfold insights_body. rewrite M. cbn [bind]. rewrite Hc.
  rewrite (proj2 (String.eqb_neq _ _) Hr), P. cbn [format_insights].
  now apply map_indexed_total.
Qed.

Lemma formatted_missing (Date_now : nat -> Z) (e : jsval) (index : nat) :
  missing_defaulted e (formatted Date_now e index).
Proof.
  unfold missing_defaulted.
  cbn [formatted AIInsight.type AIInsight.title AIInsight.message
       AIInsight.confidence].
  repeat split; intros ->; reflexivity.
Qed.

Lemma formatted_falsy (Date_now : nat -> Z) (e : jsval) (index : nat) :
  falsy_defaulted e (formatted Date_now e index).
Proof.
  unfold falsy_defaulted.
  cbn [formatted AIInsight.type AIInsight.title AIInsight.message
       AIInsight.confidence]. unfold js_or.
  repeat split; intros ->; reflexivity.
Qed.

End Insights.

Section InsightClaims.

Variable JSON_parse : string -> option jsval.
Variable JSON_stringify : list ExpenseSummary.t -> string.
Variable Date_now : nat -> Z.
Variable expenses : list ExpenseRecord.t.

Local Abbreviation request := (insights_request JSON_stringify expenses).
Local Abbreviation attempt :=
  (insights_try JSON_parse JSON_stringify Date_now expenses).
Local Abbreviation returned create :=
  (outcome create
     (generateExpenseInsights JSON_parse JSON_stringify Date_now expenses)).

(** C2. Whatever error is raised inside [generateExpenseInsights] (the
    remote call rejects, the content is missing, the text does not
    parse, or the parsed value cannot be mapped), the function resolves:
    with the single insight ["fallback-rate-limit"], of type
    ["warning"] and confidence 0.7, when the error carries the number
    429 as status or code, and with the single insight ["fallback-1"],
    of type ["info"] and confidence 0.5, for every other error. It
    never rejects. *)
Theorem insights_failure_fallback (create : Remote) :
  (exists insights, returned create = Ok insights)
  /\ (forall error,
         attempt create = Throw error ->
         (is_rate_limit error = true ->
          returned create = Ok [rate_limit_insight])
         /\ (is_rate_limit error = false ->
             returned create = Ok [unavailable_insight]))
  /\ (forall error, create request = Throw error ->
                    attempt create = Throw error)
  /\ (forall completion error,
         create request = Ok completion ->
         insights_body JSON_parse Date_now completion = Throw error ->
         returned create = Ok [unavailable_insight])
  /\ (responds create request None
      \/ responds create request (Some EmptyString) ->
      returned create = Ok [unavailable_insight])
  /\ (forall response,
         responds create request (Some response) ->
         JSON_parse (clean_response response) = None ->
         returned create = Ok [unavailable_insight])
  /\ (AIInsight.id rate_limit_insight = "fallback-rate-limit"
      /\ AIInsight.type rate_limit_insight = JStr "warning"
      /\ AIInsight.confidence rate_limit_insight = JNum (Finite 0.7))
  /\ (AIInsight.id unavailable_insight = "fallback-1"
      /\ AIInsight.type unavailable_insight = JStr "info"
      /\ AIInsight.confidence unavailable_insight = JNum (Finite 0.5)).
Proof.
  assert (Hcatch : forall error,
             attempt create = Throw error ->
             (is_rate_limit error = true ->
              returned create = Ok [rate_limit_insight])
             /\ (is_rate_limit error = false ->
                 returned create = Ok [unavailable_insight])).
  { intros error H. rewrite outcome_insights, H. cbn [try_catch].
    unfold insights_handler. split; intros ->; reflexivity. }
  assert (Hbody : forall completion error,
             create request = Ok completion ->
             insights_body JSON_parse Date_now completion = Throw error ->
             returned create = Ok [unavailable_insight]).
  { intros completion error Hc Hb.
    apply (proj2 (Hcatch error
             ltac:(unfold insights_try; rewrite Hc; exact Hb))).
    now apply (insights_body_throw JSON_parse Date_now completion). }
  split.
  { rewrite outcome_insights.
    destruct attempt as [insights|error]; cbn [try_catch].
    - now exists insights.
    - unfold insights_handler. destruct (is_rate_limit error); eauto. }
  split; [exact Hcatch|].
  split.
  { intros error H. unfold insights_try. now rewrite H. }
  split; [exact Hbody|].
  split.
  { intros [[completion [message [Hc [Hm Hcontent]]]]
           | [completion [message [Hc [Hm Hcontent]]]]];
      apply (Hbody completion (js_error "Error" "No response from AI") Hc);
      unfold insights_body; rewrite Hm; cbn [bind]; now rewrite Hcontent. }
  split; [|repeat split].
  intros response [completion [message [Hc [Hm Hcontent]]]] Hparse.
  destruct (String.eqb_spec response EmptyString) as [E|E].
  - apply (Hbody completion (js_error "Error" "No response from AI") Hc).
    unfold insights_body. rewrite Hm. cbn [bind]. rewrite Hcontent.
    now rewrite (proj2 (String.eqb_eq _ _) E).
  - apply (Hbody completion (SyntaxError "Unexpected token in JSON") Hc).
    unfold insights_body. rewrite Hm. cbn [bind]. rewrite Hcontent.
    now rewrite (proj2 (String.eqb_neq _ _) E), Hparse.
Qed.

(** C6. A successful response that is a payload whose first non-blank
    character is [[] (as in every JSON array text), wrapped in a Markdown
    code fence (with the [json] tag or without it, blanks allowed after
    the opening fence, before the closing one and around the whole), is
    stripped of the fence before it is parsed: the text handed to
    [JSON.parse] is the trimmed payload, fences gone, which is also the
    text the payload alone is cleaned to. The result of
    [generateExpenseInsights] is therefore what [JSON.parse] makes of the
    trimmed payload: when that is an array (without [null] elements) the
    result is that array formatted element by element, for the fenced
    response as for the payload alone; when the text does not parse the
    result is the fallback, for both. When the two calls read different
    clocks, only the identifiers can differ: type, title, message,
    action and confidence are the same. *)
Theorem fenced_response_like_unfenced
  (other_clock : nat -> Z) (fenced_remote plain_remote : Remote)
  (lang o1 w1 payload w2 o2 : string) :
  lang = "json" \/ lang = EmptyString ->
  all_ws o1 = true -> all_ws w1 = true ->
  all_ws w2 = true -> all_ws o2 = true ->
  startsWith (trimStart payload) "[" = true ->
  responds fenced_remote request
    (Some (o1 ++ fenced lang w1 payload w2 ++ o2)) ->
  responds plain_remote request (Some payload) ->
  clean_response (o1 ++ fenced lang w1 payload w2 ++ o2) = trim payload
  /\ clean_response payload = trim payload
  /\ startsWith (trim payload) "[" = true
  /\ clean_response (o1 ++ fenced lang w1 payload w2 ++ o2)
     = clean_response payload
  /\ returned fenced_remote
     = try_catch
         match JSON_parse (trim payload) with
         | None => Throw (SyntaxError "Unexpected token in JSON")
         | Some insights => format_insights Date_now insights
         end insights_handler
  /\ (forall elements,
         JSON_parse (trim payload) = Some (JArr elements) ->
         forallb (fun e => negb (is_nullish e)) elements = true ->
         returned fenced_remote = Ok (formatted_from Date_now 0 elements)
         /\ returned plain_remote = Ok (formatted_from Date_now 0 elements))
  /\ (JSON_parse (trim payload) = None ->
      returned fenced_remote = Ok [unavailable_insight]
      /\ returned plain_remote = Ok [unavailable_insight])
  /\ returned fenced_remote = returned plain_remote
  /\ map_result (map AIInsight.fields) (returned fenced_remote)
     = map_result (map AIInsight.fields)
         (outcome plain_remote
            (generateExpenseInsights JSON_parse JSON_stringify other_clock
               expenses)).
Proof.
  intros Hlang Ho1 Hw1 Hw2 Ho2 Hp Rf Rp.
  assert (Hfenced : clean_response (o1 ++ fenced lang w1 payload w2 ++ o2)
                    = trim payload) by (now apply clean_fenced).
  assert (Hplain : clean_response payload = trim payload)
    by (now apply clean_unfenced).
  assert (Hstart : startsWith (trim payload) "[" = true).
  { destruct (starts_with_bracket payload Hp) as [rest E]. unfold trim.
    rewrite E, trimEnd_cons_non_ws by reflexivity. reflexivity. }
  assert (Hwrapped : o1 ++ fenced lang w1 payload w2 ++ o2 <> EmptyString).
  { unfold fenced. destruct o1; discriminate. }
  assert (Hpayload : payload <> EmptyString).
  { intros ->. discriminate Hp. }
  split; [exact Hfenced|]. split; [exact Hplain|]. split; [exact Hstart|].
  split; [now rewrite Hfenced, Hplain|].
  rewrite (outcome_insights_responds _ _ _ _ _ _ Rf Hwrapped).
  rewrite !(outcome_insights_responds _ _ _ _ _ _ Rp Hpayload).
  rewrite Hfenced, Hplain.
  split; [reflexivity|]. split; [|split; [|split; [reflexivity|]]].
  - intros elements P N. rewrite P. cbn [format_insights].
    rewrite (map_indexed_non_null Date_now elements N 0). now split.
  - intros P. rewrite P. now split.
  - destruct (JSON_parse (trim payload)) as [parsed|]; [|reflexivity].
    destruct parsed; try reflexivity. cbn [format_insights].
    pose proof (map_indexed_fields Date_now other_clock elements 0) as F.
    destruct (map_indexed (format_insight Date_now) 0 elements) as [a|e1];
      destruct (map_indexed (format_insight other_clock) 0 elements) as [b|e2];
      cbn [map_result try_catch] in *; try discriminate F.
    + exact F.
    + apply Throw_inj in F. now subst e2.
Qed.

(** C7. When the remote content parses to an array (none of whose
    elements is [null]), the function returns one insight for each
    element, in order, and in it a missing [type] is ["info"], a missing
    [title] is ["AI Insight"], a missing [message] is ["Analysis
    complete"] and a missing [confidence] is 0.8. More generally this
    holds of every result that comes from the [try] block. *)
Theorem insights_missing_fields_defaulted :
  (forall create response elements,
      responds create request (Some response) ->
      response <> EmptyString ->
      JSON_parse (clean_response response) = Some (JArr elements) ->
      forallb (fun e => negb (is_nullish e)) elements = true ->
      exists insights,
        returned create = Ok insights
        /\ Forall2 missing_defaulted elements insights)
  /\ (forall create insights,
         attempt create = Ok insights ->
         returned create = Ok insights
         /\ exists response elements,
             responds create request (Some response)
             /\ JSON_parse (clean_response response) = Some (JArr elements)
             /\ Forall2 missing_defaulted elements insights).
Proof.
  assert (Hpath : forall create insights,
             attempt create = Ok insights ->
             returned create = Ok insights
             /\ exists response elements,
                 responds create request (Some response)
                 /\ JSON_parse (clean_response response) = Some (JArr elements)
                 /\ Forall2 missing_defaulted elements insights).
  { intros create insights H. split; [now rewrite outcome_insights, H|].
    destruct (insights_try_success _ _ _ _ _ _ H)
      as [response [elements [R [P F]]]].
    exists response, elements. split; [exact R|]. split; [exact P|].
    revert F. apply Forall2_impl. intros e i [_ [index ->]].
    apply formatted_missing. }
  split; [|exact Hpath].
  intros create response elements R Hr P N.
  destruct (insights_try_total JSON_parse JSON_stringify Date_now expenses
              create response elements R Hr P N) as [insights H].
  exists insights. destruct (Hpath create insights H) as [Hret Hrest].
  split; [exact Hret|].
  destruct (insights_try_success _ _ _ _ _ _ H)
    as [response' [elements' [[c [m [C [M Hc]]]] [P' F]]]].
  destruct R as [c0 [m0 [C0 [M0 Hc0]]]].
  rewrite C0 in C. apply Ok_inj in C. subst c0.
  rewrite M0 in M. apply Ok_inj in M. subst m0.
  rewrite Hc0 in Hc. injection Hc as <-.
  rewrite P in P'. injection P' as <-.
  revert F. apply Forall2_impl. intros e i [_ [index ->]].
  apply formatted_missing.
Qed.

(** C9. The defaults replace every falsy value, whether the field is
    missing or present: when the remote content parses to an array (none
    of whose elements is [null]), an element whose [confidence] is 0
    gives an insight of confidence 0.8, and an element whose [type],
    [title] or [message] is the empty string gives ["info"], ["AI
    Insight"] or ["Analysis complete"]. More generally this holds of
    every result that comes from the [try] block. *)
Theorem insights_falsy_fields_defaulted :
  (forall create response elements,
      responds create request (Some response) ->
      response <> EmptyString ->
      JSON_parse (clean_response response) = Some (JArr elements) ->
      forallb (fun e => negb (is_nullish e)) elements = true ->
      exists insights,
        returned create = Ok insights
        /\ Forall2 falsy_defaulted elements insights)
  /\ (forall create insights,
         attempt create = Ok insights ->
         returned create = Ok insights
         /\ exists response elements,
             responds create request (Some response)
             /\ JSON_parse (clean_response response) = Some (JArr elements)
             /\ Forall2 falsy_defaulted elements insights)
  /\ truthy (JNum (Finite 0)) = false
  /\ truthy (JStr EmptyString) = false
  /\ truthy JNull = false
  /\ truthy (JBool false) = false
  /\ truthy JUndefined = false.
Proof.
  assert (Hpath : forall create insights,
             attempt create = Ok insights ->
             returned create = Ok insights
             /\ exists response elements,
                 responds create request (Some response)
                 /\ JSON_parse (clean_response response) = Some (JArr elements)
                 /\ Forall2 falsy_defaulted elements insights).
  { intros create insights H. split; [now rewrite outcome_insights, H|].
    destruct (insights_try_success _ _ _ _ _ _ H)
      as [response [elements [R [P F]]]].
    exists response, elements. split; [exact R|]. split; [exact P|].
    revert F. apply Forall2_impl. intros e i [_ [index ->]].
    apply formatted_falsy. }
  split; [|split; [exact Hpath | repeat split]].
  intros create response elements R Hr P N.
  destruct (insights_try_total JSON_parse JSON_stringify Date_now expenses
              create response elements R Hr P N) as [insights H].
  exists insights. destruct (Hpath create insights H) as [Hret Hrest].
  split; [exact Hret|].
  destruct (insights_try_success _ _ _ _ _ _ H)
    as [response' [elements' [[c [m [C [M Hc]]]] [P' F]]]].
  destruct R as [c0 [m0 [C0 [M0 Hc0]]]].
  rewrite C0 in C. apply Ok_inj in C. subst c0.
  rewrite M0 in M. apply Ok_inj in M. subst m0.
  rewrite Hc0 in Hc. injection Hc as <-.
  rewrite P in P'. injection P' as <-.
  revert F. apply Forall2_impl. intros e i [_ [index ->]].
  apply formatted_falsy.
Qed.

End InsightClaims.

(** ** [generateAIAnswer] *)

Section AnswerClaims.

Variable JSON_stringify : list ExpenseSummary.t -> string.
Variable question : string.
Variable context : list ExpenseRecord.t.

Local Abbreviation request := (answer_request JSON_stringify question context).
Local Abbreviation attempt := (answer_try JSON_stringify question context).
Local Abbreviation returned create :=
  (outcome create (generateAIAnswer JSON_stringify question context)).

Lemma outcome_answer (create : Remote) :
  returned create = try_catch (attempt create) answer_handler.
Proof. reflexivity. Qed.

(** C8. For every question and context, when the remote call of
    [generateAIAnswer] fails (or the code after it throws) with an error
    that carries the number 429 as status or code, the function resolves
    with the fixed text about the service being rate limited; with any
    other error it resolves with the fixed text that suggests
    refreshing; it never rejects. *)
Theorem answer_failure_fallback (create : Remote) :
  (exists answer, returned create = Ok answer)
  /\ (forall error,
         create request = Throw error ->
         (is_rate_limit error = true ->
          returned create = Ok rate_limited_answer)
         /\ (is_rate_limit error = false ->
             returned create = Ok unavailable_answer))
  /\ (forall error,
         attempt create = Throw error ->
         (is_rate_limit error = true ->
          returned create = Ok rate_limited_answer)
         /\ (is_rate_limit error = false ->
             returned create = Ok unavailable_answer))
  /\ rate_limited_answer
     = "The AI service is currently rate limited. Your question will be answered once the service is available again. Please try again in a few minutes."
  /\ unavailable_answer
     = "I'm unable to provide a detailed answer at the moment. Please try refreshing the insights or check your connection.".
Proof.
  assert (Hcatch : forall error,
             attempt create = Throw error ->
             (is_rate_limit error = true ->
              returned create = Ok rate_limited_answer)
             /\ (is_rate_limit error = false ->
                 returned create = Ok unavailable_answer)).
  { intros error H. rewrite outcome_answer, H. cbn [try_catch].
    unfold answer_handler. split; intros ->; reflexivity. }
  split.
  { rewrite outcome_answer.
    destruct (attempt create) as [answer|error]; cbn [try_catch].
    - now exists answer.
    - unfold answer_handler. destruct (is_rate_limit error); eauto. }
  split; [|split; [exact Hcatch | split; reflexivity]].
  intros error H. apply Hcatch.
  unfold answer_try.  now rewrite H.
Qed.

End AnswerClaims.

(** ** [suggestCategory] *)

Section Suggest.

Lemma suggestion_of_category (category : string) :
  category <> EmptyString ->
  suggestion_of category
  = {| Suggestion.category := category; Suggestion.error := None |}.
Proof.
  intros H. unfold suggestion_of.
  rewrite (proj2 (String.eqb_neq _ _) H). cbn [negb andb].
  destruct (category =? "Other"); reflexivity.
Qed.

Lemma valid_category_not_empty (category : string) :
  In category validCategories -> category <> EmptyString.
Proof.
  simpl. intros H.
  repeat (destruct H as [<-|H]; [discriminate|]). contradiction.
Qed.

Lemma run_suggest_long (create : Remote) (description : string) :
  (description =? EmptyString) || (length (trim description) <? 2)%nat = false ->
  run create (suggestCategory description)
  = match outcome create (categorizeExpense (trim description)) with
    | Ok category =>
        (Ok (suggestion_of category), [categorize_request (trim description)])
    | Throw error =>
        (fst (run create (suggest_handler error)),
         [categorize_request (trim description)])
    end.
Proof.
  intros G. unfold suggestCategory. rewrite G.
  rewrite outcome_categorize. unfold categorizeExpense.
  cbn [async_bind async_try run].
  destruct (try_catch
              (completion <- create (categorize_request (trim description)) ;;
               categorize_body completion)
              (categorize_handler (trim description))) as [category|error].
  - reflexivity.
  - cbn [async_bind async_try]. unfold suggest_handler.
    now destruct (is_rate_limit error).
Qed.

(** C10. For a description that is empty or whose trimmed form has
    fewer than two characters, [suggestCategory] resolves at once with
    category ["Other"] and the error ["Description too short for
    analysis"]: no request is sent, and the classifier, which is only
    reached from [categorizeExpense], is not run. For every other
    description it awaits [categorizeExpense] on the trimmed description
    and resolves with its result as the category, without an error. *)
Theorem suggestCategory_gate (description : string) :
  (description = EmptyString \/ (length (trim description) < 2)%nat ->
   suggestCategory description = Settled (Ok too_short)
   /\ forall create, run create (suggestCategory description) = (Ok too_short, []))
  /\ (~ (description = EmptyString \/ (length (trim description) < 2)%nat) ->
      forall create, exists category,
        outcome create (categorizeExpense (trim description)) = Ok category
        /\ outcome create (suggestCategory description)
           = Ok {| Suggestion.category := category; Suggestion.error := None |}
        /\ requests create (suggestCategory description)
           = requests create (categorizeExpense (trim description))
        /\ requests create (suggestCategory description)
           = [categorize_request (trim description)])
  /\ Suggestion.category too_short = "Other"
  /\ Suggestion.error too_short = Some "Description too short for analysis".
Proof.
  split; [|split; [|split; reflexivity]].
  - intros H.
    assert (G : (description =? EmptyString)
                || (length (trim description) <? 2)%nat = true).
    { apply orb_true_iff. destruct H as [H | H].
      - left. now apply String.eqb_eq.
      - right. now apply Nat.ltb_lt. }
    assert (E : suggestCategory description = Settled (Ok too_short)).
    { unfold suggestCategory. now rewrite G. }
    split; [exact E|]. intros create. now rewrite E.
  - intros H create.
    assert (G : (description =? EmptyString)
                || (length (trim description) <? 2)%nat = false).
    { apply orb_false_iff. split.
      - apply String.eqb_neq. tauto.
      - apply Nat.ltb_ge. lia. }
    destruct (categorizeExpense_valid create (trim description))
      as [category [Hc Hv]].
    exists category. split; [exact Hc|].
    unfold outcome, requests at 1 3. rewrite (run_suggest_long create _ G), Hc.
    cbn [fst snd].
    rewrite (suggestion_of_category category (valid_category_not_empty _ Hv)).
    repeat split; reflexivity.
Qed.

End Suggest.

(** ** The claims on examples *)

(** An instance of C2: the remote call is rejected with a rate-limit
    error. *)
Lemma insights_failure_fallback_witness :
  insights_try sample_parse sample_stringify sample_clock []
    (failing rate_limit_error) = Throw rate_limit_error
  /\ is_rate_limit rate_limit_error = true
  /\ outcome (failing rate_limit_error)
       (generateExpenseInsights sample_parse sample_stringify sample_clock [])
     = Ok [rate_limit_insight].
Proof.
  split; [reflexivity|]. split; [reflexivity|].
  exact (proj1 (proj1 (proj2 (insights_failure_fallback sample_parse
                                sample_stringify sample_clock []
                                (failing rate_limit_error)))
                  rate_limit_error eq_refl) eq_refl).
Defined.

(** An instance of C6: the array with one empty object, between a
    [json] fence and line breaks, is cleaned to the text of the array and
    gives the insight made from the empty object. *)
Lemma fenced_response_like_unfenced_witness :
  ("json" = "json" \/ "json" = EmptyString)
  /\ all_ws EmptyString = true /\ all_ws nl = true
  /\ startsWith (trimStart "[{}]") "[" = true
  /\ responds (answering (Some (fenced "json" nl "[{}]" nl)))
       (insights_request sample_stringify [])
       (Some (EmptyString ++ fenced "json" nl "[{}]" nl ++ EmptyString))
  /\ responds (answering (Some "[{}]"))
       (insights_request sample_stringify []) (Some "[{}]")
  /\ sample_parse (trim "[{}]") = Some (JArr [JObj []])
  /\ forallb (fun e => negb (is_nullish e)) [JObj []] = true
  /\ clean_response ("```json" ++ nl ++ "[{}]" ++ nl ++ "```") = "[{}]"
  /\ outcome (answering (Some ("```json" ++ nl ++ "[{}]" ++ nl ++ "```")))
       (generateExpenseInsights sample_parse sample_stringify sample_clock [])
     = Ok [ {| AIInsight.id := "ai-1700000000000-0";
               AIInsight.type := JStr "info";
               AIInsight.title := JStr "AI Insight";
               AIInsight.message := JStr "Analysis complete";
               AIInsight.action := JUndefined;
               AIInsight.confidence := JNum (Finite 0.8) |} ]
  /\ outcome (answering (Some "[{}]"))
       (generateExpenseInsights sample_parse sample_stringify sample_clock [])
     = Ok [ {| AIInsight.id := "ai-1700000000000-0";
               AIInsight.type := JStr "info";
               AIInsight.title := JStr "AI Insight";
               AIInsight.message := JStr "Analysis complete";
               AIInsight.action := JUndefined;
               AIInsight.confidence := JNum (Finite 0.8) |} ].
Proof.
  assert (Rf : responds (answering (Some (fenced "json" nl "[{}]" nl)))
                 (insights_request sample_stringify [])
                 (Some (EmptyString ++ fenced "json" nl "[{}]" nl ++ EmptyString))).
  { eexists. eexists. split; [reflexivity|]. split; reflexivity. }
  assert (Rp : responds (answering (Some "[{}]"))
                 (insights_request sample_stringify []) (Some "[{}]")).
  { eexists. eexists. split; [reflexivity|]. split; reflexivity. }
  pose (T := fenced_response_like_unfenced sample_parse
               sample_stringify sample_clock [] (fun _ => 0%Z)
               (answering (Some (fenced "json" nl "[{}]" nl)))
               (answering (Some "[{}]"))
               "json" EmptyString nl "[{}]" nl EmptyString
               (or_introl eq_refl) eq_refl eq_refl eq_refl eq_refl
               eq_refl Rf Rp).
  split; [left; reflexivity|]. split; [reflexivity|]. split; [reflexivity|].
  split; [reflexivity|]. split; [exact Rf|]. split; [exact Rp|].
  split; [reflexivity|]. split; [reflexivity|].
  split; [exact (proj1 T)|].
  exact (proj1 (proj2 (proj2 (proj2 (proj2 (proj2 T)))))
           [JObj []] eq_refl eq_refl).
Defined.

(** An instance of C7: the only element is an object without fields. *)
Lemma insights_missing_fields_defaulted_witness :
  responds (answering (Some "[{}]")) (insights_request sample_stringify [])
    (Some "[{}]")
  /\ "[{}]" <> EmptyString
  /\ sample_parse (clean_response "[{}]") = Some (JArr [JObj []])
  /\ forallb (fun e => negb (is_nullish e)) [JObj []] = true
  /\ exists insights,
      outcome (answering (Some "[{}]"))
        (generateExpenseInsights sample_parse sample_stringify sample_clock [])
      = Ok insights
      /\ Forall2 missing_defaulted [JObj []] insights.
Proof.
  assert (R : responds (answering (Some "[{}]"))
                (insights_request sample_stringify []) (Some "[{}]")).
  { eexists. eexists. split; [reflexivity|]. split; reflexivity. }
  assert (Hr : "[{}]" <> EmptyString) by discriminate.
  split; [exact R|]. split; [exact Hr|]. split; [reflexivity|].
  split; [reflexivity|].
  exact (proj1 (insights_missing_fields_defaulted sample_parse
                  sample_stringify sample_clock [])
           (answering (Some "[{}]")) "[{}]" [JObj []] R Hr eq_refl eq_refl).
Defined.

(** An instance of C9: the confidence is 0 and the type is the empty
    string. *)
Lemma insights_falsy_fields_defaulted_witness :
  responds (answering (Some falsy_fields_text))
    (insights_request sample_stringify []) (Some falsy_fields_text)
  /\ falsy_fields_text <> EmptyString
  /\ sample_parse (clean_response falsy_fields_text)
     = Some (JArr [JObj [("confidence", JNum (Finite 0));
                         ("type", JStr EmptyString)]])
  /\ exists insights,
      outcome (answering (Some falsy_fields_text))
        (generateExpenseInsights sample_parse sample_stringify sample_clock [])
      = Ok insights
      /\ Forall2 falsy_defaulted
           [JObj [("confidence", JNum (Finite 0)); ("type", JStr EmptyString)]]
           insights.
Proof.
  assert (R : responds (answering (Some falsy_fields_text))
                (insights_request sample_stringify [])
                (Some falsy_fields_text)).
  { eexists. eexists. split; [reflexivity|]. split; reflexivity. }
  assert (Hr : falsy_fields_text <> EmptyString) by discriminate.
  split; [exact R|]. split; [exact Hr|]. split; [reflexivity|].
  exact (proj1 (insights_falsy_fields_defaulted sample_parse
                  sample_stringify sample_clock [])
           (answering (Some falsy_fields_text)) falsy_fields_text _
           R Hr eq_refl eq_refl).
Defined.

(** An instance of C8: the remote call is rejected with a rate-limit
    error. *)
Lemma answer_failure_fallback_witness :
  failing rate_limit_error
    (answer_request sample_stringify "How much did I spend on food?" [])
  = Throw rate_limit_error
  /\ is_rate_limit rate_limit_error = true
  /\ outcome (failing rate_limit_error)
       (generateAIAnswer sample_stringify "How much did I spend on food?" [])
     = Ok rate_limited_answer.
Proof.
  split; [reflexivity|]. split; [reflexivity|].
  exact (proj1 (proj1 (proj2 (answer_failure_fallback sample_stringify
                                "How much did I spend on food?" []
                                (failing rate_limit_error)))
                  rate_limit_error eq_refl) eq_refl).
Defined.

(** Two instances of C10: a description of one letter between blanks,
    and a description that goes to the categorizer, whose call fails. *)
Lemma suggestCategory_gate_witness :
  (" a " = EmptyString \/ (length (trim " a ") < 2)%nat)
  /\ run (answering (Some "Food")) (suggestCategory " a ") = (Ok too_short, [])
  /\ ~ (" Coffee " = EmptyString \/ (length (trim " Coffee ") < 2)%nat)
  /\ exists category,
      outcome (failing network_error) (categorizeExpense (trim " Coffee "))
      = Ok category
      /\ outcome (failing network_error) (suggestCategory " Coffee ")
         = Ok {| Suggestion.category := category; Suggestion.error := None |}
      /\ requests (failing network_error) (suggestCategory " Coffee ")
         = requests (failing network_error) (categorizeExpense (trim " Coffee "))
      /\ requests (failing network_error) (suggestCategory " Coffee ")
         = [categorize_request (trim " Coffee ")].
Proof.
  assert (Hshort : " a " = EmptyString \/ (length (trim " a ") < 2)%nat)
    by (right; exact (le_n 2)).
  assert (Hlong : ~ (" Coffee " = EmptyString
                     \/ (length (trim " Coffee ") < 2)%nat)).
  { intros [H | H]; [discriminate H|]. vm_compute in H. lia. }
  split; [exact Hshort|].
  split; [exact (proj2 (proj1 (suggestCategory_gate " a ") Hshort)
                   (answering (Some "Food")))|].
  split; [exact Hlong|].
  exact (proj1 (proj2 (suggestCategory_gate " Coffee ")) Hlong
           (failing network_error)).
Defined.

(* ================================================================= *)
(** * Further properties of the code *)

(** ** More on strings *)

Section MoreStringFacts.

Lemma is_ws_lower_char (c : ascii) : is_ws (lower_char c) = is_ws c.
Proof.
  destruct c as [b0 b1 b2 b3 b4 b5 b6 b7].
  destruct b0, b1, b2, b3, b4, b5, b6, b7; reflexivity.
Qed.

Lemma lower_char_idempotent (c : ascii) :
  lower_char (lower_char c) = lower_char c.
Proof.
  destruct c as [b0 b1 b2 b3 b4 b5 b6 b7].
  destruct b0, b1, b2, b3, b4, b5, b6, b7; reflexivity.
Qed.

Lemma toLowerCase_idempotent (s : string) :
  toLowerCase (toLowerCase s) = toLowerCase s.
Proof.
  induction s as [|c s IH]; simpl; [reflexivity|].
  now rewrite lower_char_idempotent, IH.
Qed.

Lemma all_ws_toLowerCase (s : string) : all_ws (toLowerCase s) = all_ws s.
Proof.
  induction s as [|c s IH]; simpl; [reflexivity|].
  now rewrite is_ws_lower_char, IH.
Qed.

Lemma trimStart_all_ws (w : string) :
  all_ws w = true -> trimStart w = EmptyString.
Proof.
  induction w as [|c w IH]; simpl; [reflexivity|].
  rewrite andb_true_iff. intros [Hc Hw]. now rewrite Hc, IH.
Qed.

Lemma trim_all_ws (w : string) : all_ws w = true -> trim w = EmptyString.
Proof. intros H. unfold trim. now rewrite trimStart_all_ws. Qed.

Lemma trimStart_empty_all_ws (s : string) :
  trimStart s = EmptyString -> all_ws s = true.
Proof.
  induction s as [|c s IH]; simpl; [reflexivity|].
  destruct (is_ws c); [exact IH | discriminate].
Qed.

(** Blanks around a string do not change its trimmed form. *)
Lemma trim_pad (o1 s o2 : string) :
  all_ws o1 = true -> all_ws o2 = true -> trim (o1 ++ s ++ o2) = trim s.
Proof.
  intros H1 H2. unfold trim. rewrite (trimStart_app_ws o1 _ H1).
  destruct (trimStart s) eqn:E.
  - apply trimStart_empty_all_ws in E.
    rewrite trimStart_all_ws by (now rewrite all_ws_app, E, H2).
    reflexivity.
  - rewrite trimStart_app by (rewrite E; discriminate).
    rewrite E. now apply trimEnd_app_ws.
Qed.

Lemma trimStart_decompose (s : string) :
  exists w, s = w ++ trimStart s.
Proof.
  induction s as [|c s [w IH]]; [now exists EmptyString|].
  simpl. destruct (is_ws c).
  - exists (String c w). simpl. now rewrite <- IH.
  - now exists EmptyString.
Qed.

Lemma trimEnd_decompose (s : string) :
  exists w, s = trimEnd s ++ w.
Proof.
  induction s as [|c s [w IH]]; [now exists EmptyString|].
  cbn [trimEnd]. destruct (trimEnd s) eqn:E.
  - destruct (is_ws c).
    + exists (String c s). reflexivity.
    + exists w. simpl. f_equal. exact IH.
  - exists w. change (String c s = String c (String a s0 ++ w)).
    f_equal. exact IH.
Qed.

(** What occurs in the trimmed form occurs in the string. *)
Lemma is_substring_of_trim (k s : string) :
  is_substring k (trim s) -> is_substring k s.
Proof.
  intros [pre [post H]]. unfold trim in H.
  destruct (trimStart_decompose s) as [w1 H1].
  destruct (trimEnd_decompose (trimStart s)) as [w2 H2].
  exists (w1 ++ pre), (post ++ w2).
  rewrite H1 at 1. rewrite H2 at 1. rewrite H.
  now rewrite !app_assoc.
Qed.

Lemma toLowerCase_trimStart (s : string) :
  toLowerCase (trimStart s) = trimStart (toLowerCase s).
Proof.
  induction s as [|c s IH]; simpl; [reflexivity|].
  rewrite is_ws_lower_char. now destruct (is_ws c).
Qed.

Lemma toLowerCase_trimEnd (s : string) :
  toLowerCase (trimEnd s) = trimEnd (toLowerCase s).
Proof.
  induction s as [|c s IH]; [reflexivity|].
  cbn [trimEnd toLowerCase]. rewrite <- IH, is_ws_lower_char.
  destruct (trimEnd s); [now destruct (is_ws c) | reflexivity].
Qed.

Lemma toLowerCase_trim (s : string) :
  toLowerCase (trim s) = trim (toLowerCase s).
Proof.
  unfold trim. now rewrite toLowerCase_trimEnd, toLowerCase_trimStart.
Qed.

Lemma last_char_app_cons (a : string) (c : ascii) :
  last_char (a ++ String c EmptyString) = Some c.
Proof.
  induction a as [|x a IH]; [reflexivity|].
  simpl. destruct (a ++ String c EmptyString) eqn:E; [|exact IH].
  destruct a; discriminate.
Qed.

Lemma last_char_app (a b : string) :
  b <> EmptyString -> last_char (a ++ b) = last_char b.
Proof.
  intros H. induction a as [|x a IH]; [reflexivity|].
  simpl. destruct (a ++ b) eqn:E; [|exact IH].
  destruct a; simpl in E; [contradiction | discriminate].
Qed.

End MoreStringFacts.

(** ** More on the keyword classifier *)

Section MoreClassifier.

Lemma is_substring_trans (a b c : string) :
  is_substring a b -> is_substring b c -> is_substring a c.
Proof.
  intros [p1 [q1 ->]] [p2 [q2 ->]]. exists (p2 ++ p1), (q1 ++ q2).
  now rewrite !app_assoc.
Qed.

Lemma some_included_none (keywords : list string) (desc : string) :
  some_included keywords desc = false ->
  forall k, In k keywords -> includes desc k = false.
Proof.
  unfold some_included. intros H k Hin.
  destruct (includes desc k) eqn:E; [|reflexivity].
  assert (existsb (fun keyword => includes desc keyword) keywords = true)
    by (apply existsb_exists; now exists k).
  congruence.
Qed.

Lemma some_included_trim (keywords : list string) (s : string) :
  forallb (fun k => first_non_ws k && last_non_ws k) keywords = true ->
  some_included keywords (trim s) = some_included keywords s.
Proof.
  intros H. apply eq_true_iff_eq. rewrite !some_included_spec.
  split; intros [k [Hin Hk]]; exists k; split; trivial.
  - now apply is_substring_of_trim.
  - apply (proj1 (forallb_forall _ _) H) in Hin.
    apply andb_true_iff in Hin as [Hf Hl]. now apply is_substring_trim.
Qed.

Lemma first_match_trim (sets : list (string * list string)) (s : string) :
  edges_non_ws sets = true ->
  first_match sets (trim s) = first_match sets s.
Proof.
  induction sets as [|[category keywords] rest IH]; [reflexivity|].
  unfold edges_non_ws. cbn [forallb snd]. rewrite andb_true_iff.
  intros [Hk Hrest]. cbn [first_match].
  rewrite (some_included_trim keywords s Hk). now rewrite (IH Hrest).
Qed.

Lemma keyword_edges : edges_non_ws keyword_sets = true.
Proof. vm_compute. reflexivity. Qed.

Lemma shadowed_categories (sets : list (string * list string)) :
  forall earlier k c,
    In (k, c) (shadowed earlier sets) -> In c (map fst sets).
Proof.
  induction sets as [|[category keywords] rest IH]; intros earlier k c H.
  - destruct H.
  - cbn [shadowed] in H. apply in_app_or in H as [H | H].
    + apply in_map_iff in H as [k1 [E _]]. injection E as _ <-. now left.
    + right. exact (IH _ k c H).
Qed.

(** A keyword that holds a keyword of an earlier set never decides the
    category: the earlier set is found first. *)
Lemma first_match_shadowed (sets : list (string * list string)) :
  forall earlier desc k c,
    NoDup (map fst sets) ->
    (forall k', In k' earlier -> includes desc k' = false) ->
    In (k, c) (shadowed earlier sets) ->
    is_substring k desc ->
    first_match sets desc <> c.
Proof.
  induction sets as [|[category keywords] rest IH];
    intros earlier desc k c Hnd Hearlier Hin Hsub.
  - destruct Hin.
  - cbn [shadowed] in Hin. apply in_app_or in Hin as [Hin | Hin].
    + apply in_map_iff in Hin as [k1 [E Hf]]. injection E as -> _.
      apply filter_In in Hf as [_ Hex].
      apply existsb_exists in Hex as [k' [Hk' Hinc]].
      apply includes_spec in Hinc.
      assert (Hd : includes desc k' = true)
        by (apply includes_spec; now apply (is_substring_trans k' k desc)).
      rewrite (Hearlier k' Hk') in Hd. discriminate.
    + cbn [map fst] in Hnd. apply NoDup_cons_iff in Hnd as [Hnot Hnd].
      cbn [first_match]. destruct (some_included keywords desc) eqn:E.
      * intros ->. apply Hnot. exact (shadowed_categories rest _ k _ Hin).
      * apply (IH (earlier ++ keywords)%list desc k c Hnd); trivial.
        intros k' Hk'. apply in_app_or in Hk' as [Hk' | Hk'].
        -- now apply Hearlier.
        -- now apply (some_included_none keywords desc E).
Qed.

(** X1. The classifier gives ["Other"] to a description made of blanks
    only. *)
Theorem classify_blank_is_other (description : string) :
  all_ws description = true ->
  categorizeExpenseLocally description = "Other".
Proof.
  intros H. rewrite classify_refines. unfold classify_spec.
  rewrite trim_all_ws by (now rewrite all_ws_toLowerCase).
  reflexivity.
Qed.

Lemma classify_blank_is_other_witness :
  all_ws (" " ++ nl ++ "  ") = true
  /\ categorizeExpenseLocally (" " ++ nl ++ "  ") = "Other".
Proof.
  split; [reflexivity|].
  exact (classify_blank_is_other (" " ++ nl ++ "  ") eq_refl).
Defined.

(** X2. The classifier does not see the case of the letters nor the blanks
    around the description. *)
Theorem classify_ignores_case_and_padding (d d' o1 o2 : string) :
  all_ws o1 = true -> all_ws o2 = true ->
  toLowerCase d = toLowerCase d' ->
  categorizeExpenseLocally (o1 ++ d ++ o2) = categorizeExpenseLocally d'
  /\ categorizeExpenseLocally (toLowerCase d) = categorizeExpenseLocally d.
Proof.
  intros H1 H2 H. split.
  - rewrite (classify_refines (o1 ++ d ++ o2)), (classify_refines d').
    unfold classify_spec. rewrite !toLowerCase_app.
    rewrite trim_pad by (now rewrite all_ws_toLowerCase). now rewrite H.
  - rewrite (classify_refines (toLowerCase d)), (classify_refines d).
    unfold classify_spec. now rewrite toLowerCase_idempotent.
Qed.

Lemma classify_ignores_case_and_padding_witness :
  all_ws "  " = true /\ all_ws nl = true
  /\ toLowerCase "NETFLIX Premium" = toLowerCase "netflix premium"
  /\ categorizeExpenseLocally ("  " ++ "NETFLIX Premium" ++ nl)
     = categorizeExpenseLocally "netflix premium".
Proof.
  split; [reflexivity|]. split; [reflexivity|]. split; [reflexivity|].
  exact (proj1 (classify_ignores_case_and_padding "NETFLIX Premium"
                  "netflix premium" "  " nl eq_refl eq_refl eq_refl)).
Defined.

Lemma classify_untrimmed (description : string) :
  categorizeExpenseLocally description
  = first_match keyword_sets (toLowerCase description).
Proof.
  rewrite classify_refines. unfold classify_spec.
  apply first_match_trim, keyword_edges.
Qed.

(** X3. Trimming the description changes nothing for the classifier: no
    keyword starts or ends with a blank, so a keyword occurs in the
    trimmed description exactly when it occurs in the untrimmed one. *)
Theorem classify_without_trim (description : string) :
  categorizeExpenseLocally description
  = first_match keyword_sets (toLowerCase description)
  /\ (forall keywords,
         In keywords (map snd keyword_sets) ->
         some_included keywords (trim (toLowerCase description))
         = some_included keywords (toLowerCase description)).
Proof.
  split; [apply classify_untrimmed|].
  intros keywords Hin. apply some_included_trim.
  apply in_map_iff in Hin as [[category kws] [<- Hin]].
  exact (proj1 (forallb_forall _ _) keyword_edges (category, kws) Hin).
Qed.

(** X4. Thirteen keywords can never decide the category they are listed
    under, because each holds a keyword of an earlier set (["theater"]
    and ["treatment"] hold ["eat"], ["credit card"] and ["urgent care"]
    hold ["car"], ["public transport"] holds ["pub"], ...): a
    description in which one of them occurs is never given that
    category. *)
Theorem classify_shadowed_keywords :
  shadowed [] keyword_sets
  = [ ("subway", "Transportation"); ("public transport", "Transportation");
      ("theater", "Entertainment"); ("gas bill", "Bills");
      ("phone bill", "Bills"); ("insurance", "Bills");
      ("subscription", "Bills"); ("maintenance", "Bills");
      ("repair", "Bills"); ("credit card", "Bills");
      ("treatment", "Healthcare"); ("insurance", "Healthcare");
      ("urgent care", "Healthcare") ]
  /\ (forall description keyword category,
         In (keyword, category) (shadowed [] keyword_sets) ->
         is_substring keyword (trim (toLowerCase description)) ->
         categorizeExpenseLocally description <> category)
  /\ (forall description keyword category written,
         In (keyword, category) (shadowed [] keyword_sets) ->
         toLowerCase written = keyword ->
         is_substring written description ->
         categorizeExpenseLocally description <> category).
Proof.
  assert (Hnorm : forall description keyword category,
             In (keyword, category) (shadowed [] keyword_sets) ->
             is_substring keyword (trim (toLowerCase description)) ->
             categorizeExpenseLocally description <> category).
  { intros description keyword category Hin Hsub.
    rewrite classify_refines. unfold classify_spec.
    apply (first_match_shadowed keyword_sets [] _ keyword category); trivial.
    - vm_compute. repeat constructor; simpl; intuition discriminate.
    - intros k' []. }
  split; [vm_compute; reflexivity|]. split; [exact Hnorm|].
  intros description keyword category written Hin Hlow Hsub.
  apply (Hnorm description keyword category Hin).
  apply (plain_keyword_normalized keyword written); trivial.
  assert (P : forallb (fun p => plain_keyword (fst p))
                (shadowed [] keyword_sets) = true)
    by (vm_compute; reflexivity).
  exact (proj1 (forallb_forall _ _) P (keyword, category) Hin).
Qed.

Lemma classify_shadowed_keywords_witness :
  In ("credit card", "Bills") (shadowed [] keyword_sets)
  /\ toLowerCase "Credit Card" = "credit card"
  /\ is_substring "Credit Card" "Credit Card payment"
  /\ categorizeExpenseLocally "Credit Card payment" <> "Bills"
  /\ categorizeExpenseLocally "Credit Card payment" = "Transportation".
Proof.
  assert (Hin : In ("credit card", "Bills") (shadowed [] keyword_sets)).
  { rewrite (proj1 classify_shadowed_keywords). simpl. tauto. }
  assert (Hsub : is_substring "Credit Card" "Credit Card payment")
    by (exists EmptyString, " payment"; reflexivity).
  split; [exact Hin|]. split; [reflexivity|]. split; [exact Hsub|].
  split; [|reflexivity].
  exact (proj2 (proj2 classify_shadowed_keywords) "Credit Card payment"
           "credit card" "Bills" "Credit Card" Hin eq_refl Hsub).
Defined.

End MoreClassifier.

(** ** More on [categorizeExpense] and [suggestCategory] *)

Section MoreCategorize.

Lemma classify_of_trimmed (description : string) :
  categorizeExpenseLocally (trim description)
  = categorizeExpenseLocally description.
Proof.
  rewrite (classify_untrimmed (trim description)).
  rewrite (classify_untrimmed description).
  rewrite toLowerCase_trim. apply first_match_trim, keyword_edges.
Qed.

Lemma too_short_guard (description : string) :
  (description =? EmptyString) || (length (trim description) <? 2)%nat = true
  <-> too_short_for_analysis description.
Proof.
  unfold too_short_for_analysis.
  rewrite orb_true_iff, String.eqb_eq, Nat.ltb_lt. reflexivity.
Qed.

Lemma too_short_guard_false (description : string) :
  ~ too_short_for_analysis description ->
  (description =? EmptyString) || (length (trim description) <? 2)%nat = false.
Proof.
  intros H.
  destruct ((description =? EmptyString)
            || (length (trim description) <? 2)%nat) eqn:G; [|reflexivity].
  now apply too_short_guard in G.
Qed.

(** X5. A completion without any choice makes [categorizeExpense] fall back
    to the keyword classifier: reading [choices[0].message] throws inside
    the [try] block. *)
Theorem categorize_without_choice_uses_classifier
  (description : string) (create : Remote) (completion : ChatCompletion.t) :
  create (categorize_request description) = Ok completion ->
  ChatCompletion.choices completion = [] ->
  outcome create (categorizeExpense description)
  = Ok (categorizeExpenseLocally description).
Proof.
  intros C E. rewrite outcome_categorize, C. cbn [bind].
  unfold categorize_body, first_choice_message. rewrite E.
  cbn [bind try_catch]. apply categorize_handler_local.
Qed.

Lemma categorize_without_choice_uses_classifier_witness :
  (fun _ => Ok {| ChatCompletion.choices := [] |})
    (categorize_request "Bus ticket")
  = Ok {| ChatCompletion.choices := [] |}
  /\ ChatCompletion.choices {| ChatCompletion.choices := [] |} = []
  /\ outcome (fun _ => Ok {| ChatCompletion.choices := [] |})
       (categorizeExpense "Bus ticket")
     = Ok "Transportation".
Proof.
  split; [reflexivity|]. split; [reflexivity|].
  exact (categorize_without_choice_uses_classifier "Bus ticket"
           (fun _ => Ok {| ChatCompletion.choices := [] |})
           {| ChatCompletion.choices := [] |} eq_refl eq_refl).
Defined.

(** X6. [suggestCategory] always resolves, with a category of the closed
    set, after at most one request; the only error it ever reports is
    the one for a description that is too short: the messages of its
    [catch] block and ["Could not determine category"] are never
    returned, because [categorizeExpense] neither rejects nor returns
    an empty string. *)
Theorem suggestCategory_error_only_when_short
  (description : string) (create : Remote) :
  exists suggestion,
    outcome create (suggestCategory description) = Ok suggestion
    /\ In (Suggestion.category suggestion) validCategories
    /\ (Suggestion.error suggestion = None
        <-> ~ too_short_for_analysis description)
    /\ (Suggestion.error suggestion = None
        \/ Suggestion.error suggestion
           = Some "Description too short for analysis")
    /\ (List.length (requests create (suggestCategory description)) <= 1)%nat.
Proof.
  destruct ((description =? EmptyString)
            || (length (trim description) <? 2)%nat) eqn:G.
  - exists too_short.
    assert (E : suggestCategory description = Settled (Ok too_short))
      by (unfold suggestCategory; now rewrite G).
    unfold outcome, requests. rewrite E. cbn [run fst snd].
    apply too_short_guard in G.
    split; [reflexivity|]. split; [simpl; auto 10|].
    split; [|split; [right; reflexivity | simpl; lia]].
    split; [discriminate | intros H; contradiction].
  - destruct (categorizeExpense_valid create (trim description))
      as [category [Hc Hv]].
    exists {| Suggestion.category := category; Suggestion.error := None |}.
    unfold outcome, requests. rewrite (run_suggest_long create _ G), Hc.
    cbn [fst snd].
    rewrite (suggestion_of_category category (valid_category_not_empty _ Hv)).
    split; [reflexivity|]. split; [exact Hv|].
    split; [|split; [left; reflexivity | simpl; lia]].
    split; [|reflexivity]. intros _ H. apply too_short_guard in H. congruence.
Qed.

(** X7. When the remote call fails, [suggestCategory] suggests what the
    keyword classifier gives to the description as typed: trimming it
    first makes no difference to the classifier. *)
Theorem suggestCategory_offline_is_classifier
  (description : string) (create : Remote) (error : jsval) :
  ~ too_short_for_analysis description ->
  create (categorize_request (trim description)) = Throw error ->
  outcome create (suggestCategory description)
  = Ok {| Suggestion.category := categorizeExpenseLocally description;
          Suggestion.error := None |}.
Proof.
  intros Hlong C. apply too_short_guard_false in Hlong.
  assert (Hc : outcome create (categorizeExpense (trim description))
               = Ok (categorizeExpenseLocally description)).
  { rewrite outcome_categorize, C. cbn [bind try_catch].
    rewrite categorize_handler_local. now rewrite classify_of_trimmed. }
  unfold outcome at 1. rewrite (run_suggest_long create _ Hlong), Hc.
  cbn [fst]. rewrite suggestion_of_category; [reflexivity|].
  apply valid_category_not_empty, categorizeExpenseLocally_valid.
Qed.

Lemma suggestCategory_offline_is_classifier_witness :
  ~ too_short_for_analysis "  Pharmacy run "
  /\ failing rate_limit_error (categorize_request (trim "  Pharmacy run "))
     = Throw rate_limit_error
  /\ outcome (failing rate_limit_error) (suggestCategory "  Pharmacy run ")
     = Ok {| Suggestion.category := "Healthcare"; Suggestion.error := None |}.
Proof.
  assert (H : ~ too_short_for_analysis "  Pharmacy run ").
  { intros [H | H]; [discriminate H|]. vm_compute in H. lia. }
  split; [exact H|]. split; [reflexivity|].
  exact (suggestCategory_offline_is_classifier "  Pharmacy run "
           (failing rate_limit_error) rate_limit_error H eq_refl).
Defined.

End MoreCategorize.

(** ** More on [generateAIAnswer] *)

Section MoreAnswer.

Variable JSON_stringify : list ExpenseSummary.t -> string.
Variable question : string.
Variable context : list ExpenseRecord.t.

Local Abbreviation request := (answer_request JSON_stringify question context).
Local Abbreviation returned create :=
  (outcome create (generateAIAnswer JSON_stringify question context)).

Lemma outcome_answer_responds (create : Remote) (content : option string) :
  responds create request content ->
  returned create
  = try_catch
      match content with
      | None => Throw (js_error "Error" "No response from AI")
      | Some response =>
          if response =? EmptyString
          then Throw (js_error "Error" "No response from AI")
          else Ok (trim response)
      end answer_handler.
Proof.
  intros [completion [message [C [M Hc]]]].
  rewrite outcome_answer. unfold answer_try. rewrite C. cbn [bind].
  unfold answer_body. rewrite M. cbn [bind]. now rewrite Hc.
Qed.

(** X8. On success [generateAIAnswer] returns the content of the first
    choice, trimmed; a content made of blanks only passes the emptiness
    test and gives the empty string as the answer. *)
Theorem answer_returns_trimmed_content (create : Remote) (response : string) :
  responds create request (Some response) ->
  response <> EmptyString ->
  returned create = Ok (trim response)
  /\ (all_ws response = true -> returned create = Ok EmptyString).
Proof.
  intros R H. rewrite (outcome_answer_responds create _ R).
  rewrite (proj2 (String.eqb_neq _ _) H). cbn [try_catch].
  split; [reflexivity|]. intros W. now rewrite trim_all_ws.
Qed.

(** X9. A completion without content ([null], the empty string, or no choice
    at all) gives the text that suggests refreshing, never the one about
    rate limiting. *)
Theorem answer_without_content_unavailable (create : Remote) :
  responds create request None
  \/ responds create request (Some EmptyString)
  \/ (exists completion,
         create request = Ok completion
         /\ ChatCompletion.choices completion = []) ->
  returned create = Ok unavailable_answer.
Proof.
  intros [R | [R | [completion [C E]]]].
  - now rewrite (outcome_answer_responds create _ R).
  - now rewrite (outcome_answer_responds create _ R).
  - rewrite outcome_answer. unfold answer_try. rewrite C. cbn [bind].
    unfold answer_body, first_choice_message. now rewrite E.
Qed.

End MoreAnswer.

Lemma answer_returns_trimmed_content_witness :
  responds (answering (Some (" You spent 40 on food." ++ nl)))
    (answer_request sample_stringify "Food?" [])
    (Some (" You spent 40 on food." ++ nl))
  /\ " You spent 40 on food." ++ nl <> EmptyString
  /\ outcome (answering (Some (" You spent 40 on food." ++ nl)))
       (generateAIAnswer sample_stringify "Food?" [])
     = Ok "You spent 40 on food.".
Proof.
  assert (R : responds (answering (Some (" You spent 40 on food." ++ nl)))
                (answer_request sample_stringify "Food?" [])
                (Some (" You spent 40 on food." ++ nl))).
  { eexists. eexists. split; [reflexivity|]. split; reflexivity. }
  assert (H : " You spent 40 on food." ++ nl <> EmptyString) by discriminate.
  split; [exact R|]. split; [exact H|].
  exact (proj1 (answer_returns_trimmed_content sample_stringify "Food?" []
                  (answering (Some (" You spent 40 on food." ++ nl)))
                  (" You spent 40 on food." ++ nl) R H)).
Defined.

Lemma answer_without_content_unavailable_witness :
  responds (answering None) (answer_request sample_stringify "Food?" []) None
  /\ outcome (answering None) (generateAIAnswer sample_stringify "Food?" [])
     = Ok unavailable_answer.
Proof.
  assert (R : responds (answering None)
                (answer_request sample_stringify "Food?" []) None).
  { eexists. eexists. split; [reflexivity|]. split; reflexivity. }
  split; [exact R|].
  exact (answer_without_content_unavailable sample_stringify "Food?" []
           (answering None) (or_introl R)).
Defined.

(** ** More on [generateExpenseInsights] *)

Section MoreInsights.

Variable JSON_parse : string -> option jsval.
Variable JSON_stringify : list ExpenseSummary.t -> string.
Variable Date_now : nat -> Z.
Variable expenses : list ExpenseRecord.t.

Local Abbreviation request := (insights_request JSON_stringify expenses).
Local Abbreviation attempt :=
  (insights_try JSON_parse JSON_stringify Date_now expenses).
Local Abbreviation returned create :=
  (outcome create
     (generateExpenseInsights JSON_parse JSON_stringify Date_now expenses)).

Lemma map_indexed_formatted_from (elements : list jsval) :
  forall (first : nat) (insights : list AIInsight.t),
    map_indexed (format_insight Date_now) first elements = Ok insights ->
    insights = formatted_from Date_now first elements.
Proof.
  induction elements as [|x rest IH]; intros first insights H.
  - cbn [map_indexed] in H. apply Ok_inj in H. now subst insights.
  - cbn [map_indexed bind] in H. rewrite format_insight_spec in H.
    destruct (is_nullish x); [discriminate H|]. cbn [bind] in H.
    destruct (map_indexed (format_insight Date_now) (S first) rest)
      as [ys|err] eqn:R; [|discriminate H].
    cbn [bind] in H. apply Ok_inj in H. subst insights.
    cbn [formatted_from]. f_equal. now apply IH.
Qed.

Lemma attempt_formatted_from (create : Remote) (insights : list AIInsight.t) :
  attempt create = Ok insights ->
  exists elements, insights = formatted_from Date_now 0 elements.
Proof.
  unfold insights_try.
  destruct (create request) as [completion|err]; cbn [bind]; [|discriminate].
  intros H.
  destruct (insights_body_inv _ _ _ _ H)
    as [message [response [elements [_ [_ [_ M]]]]]].
  exists elements. now apply map_indexed_formatted_from.
Qed.

Lemma ids_of_formatted_from (elements : list jsval) :
  forall first,
    map AIInsight.id (formatted_from Date_now first elements)
    = map (insight_id Date_now) (seq first (List.length elements)).
Proof.
  induction elements as [|x rest IH]; intros first; [reflexivity|].
  cbn [formatted_from map List.length seq]. now rewrite IH.
Qed.

Lemma length_formatted_from (elements : list jsval) :
  forall first,
    List.length (formatted_from Date_now first elements) = List.length elements.
Proof.
  induction elements as [|x rest IH]; intros first; [reflexivity|].
  cbn [formatted_from List.length]. now rewrite IH.
Qed.

Lemma no_dash_digits (d : Decimal.uint) :
  no_dash (NilEmpty.string_of_uint d) = true.
Proof. induction d; simpl; auto. Qed.

Lemma no_dash_string_of_nat (n : nat) : no_dash (string_of_nat n) = true.
Proof.
  unfold string_of_nat, NilZero.string_of_uint.
  destruct (Nat.to_uint n); try apply no_dash_digits. reflexivity.
Qed.

Lemma string_of_nat_inj (i j : nat) :
  string_of_nat i = string_of_nat j -> i = j.
Proof.
  unfold string_of_nat. intros H.
  set (g := fun d => match d with Decimal.Nil => Decimal.D0 Decimal.Nil | _ => d end).
  assert (S : forall d, NilZero.string_of_uint d = NilEmpty.string_of_uint (g d))
    by (now destruct d).
  rewrite !S in H. apply (f_equal NilEmpty.uint_of_string) in H.
  rewrite !NilEmpty.usu in H. injection H as H.
  assert (O : forall d, Nat.of_uint (g d) = Nat.of_uint d) by (now destruct d).
  apply (f_equal Nat.of_uint) in H. rewrite !O in H.
  now rewrite !Unsigned.of_to in H.
Qed.

Lemma dash_in_app (a x : string) : no_dash (a ++ String "-" x) = false.
Proof.
  induction a as [|c a IH]; [reflexivity|].
  simpl. rewrite IH. apply andb_false_r.
Qed.

(** What follows the last hyphen of a string is determined by the
    string. *)
Lemma after_last_dash (a b x y : string) :
  no_dash x = true -> no_dash y = true ->
  a ++ String "-" x = b ++ String "-" y -> x = y.
Proof.
  intros Hx Hy. revert b. induction a as [|c a IH]; intros [|c' b] H.
  - now injection H.
  - simpl in H. injection H as _ H. subst x.
    rewrite dash_in_app in Hx. discriminate.
  - simpl in H. injection H as _ H. subst y.
    rewrite dash_in_app in Hy. discriminate.
  - simpl in H. injection H as _ H. now apply (IH b).
Qed.

Lemma insight_id_inj (i j : nat) :
  insight_id Date_now i = insight_id Date_now j -> i = j.
Proof.
  unfold insight_id. intros H. simpl in H. injection H as H.
  apply string_of_nat_inj.
  apply (after_last_dash (string_of_Z (Date_now i)) (string_of_Z (Date_now j)));
    trivial; apply no_dash_string_of_nat.
Qed.

Lemma NoDup_map_injective {A B : Type} (f : A -> B) (l : list A) :
  (forall x y, f x = f y -> x = y) -> NoDup l -> NoDup (map f l).
Proof.
  intros Inj N. induction N as [|x l Hx N IH]; simpl; constructor; trivial.
  intros Hin. apply in_map_iff in Hin as [y [E Hy]].
  apply Inj in E. now subst y.
Qed.

(** X10. The identifiers of the insights of one result are ["ai-"], the time
    read for the element, a hyphen and the index of the element; they
    are pairwise distinct whatever the clock returns, and none of them is
    the identifier of a fallback insight. *)
Theorem insight_ids_distinct (create : Remote) (insights : list AIInsight.t) :
  attempt create = Ok insights ->
  map AIInsight.id insights
  = map (insight_id Date_now) (seq 0 (List.length insights))
  /\ NoDup (map AIInsight.id insights)
  /\ Forall (fun i => AIInsight.id i <> AIInsight.id rate_limit_insight
                      /\ AIInsight.id i <> AIInsight.id unavailable_insight)
            insights.
Proof.
  intros H. destruct (attempt_formatted_from create insights H) as [elements ->].
  assert (E : map AIInsight.id (formatted_from Date_now 0 elements)
              = map (insight_id Date_now)
                    (seq 0 (List.length (formatted_from Date_now 0 elements)))).
  { rewrite length_formatted_from. apply ids_of_formatted_from. }
  split; [exact E|]. split.
  - rewrite E. apply NoDup_map_injective; [|apply seq_NoDup].
    intros i j. apply insight_id_inj.
  - apply Forall_forall. intros i Hi.
    apply (in_map AIInsight.id) in Hi. rewrite E in Hi.
    apply in_map_iff in Hi as [index [<- _]].
    split; discriminate.
Qed.

Lemma formatted_truthy (e : jsval) (index : nat) :
  truthy_kept e (formatted Date_now e index).
Proof.
  unfold truthy_kept.
  cbn [formatted AIInsight.type AIInsight.title AIInsight.message
       AIInsight.action AIInsight.confidence]. unfold js_or.
  repeat split; intros ->; reflexivity.
Qed.

(** X11. The fields of the remote answer are not validated: a truthy [type],
    [title], [message] or [confidence] is copied as it is, whatever its
    kind of value, and [action] is copied in every case. *)
Theorem insights_truthy_fields_kept (create : Remote)
  (insights : list AIInsight.t) :
  attempt create = Ok insights ->
  exists response elements,
    responds create request (Some response)
    /\ JSON_parse (clean_response response) = Some (JArr elements)
    /\ Forall2 truthy_kept elements insights.
Proof.
  intros H.
  destruct (insights_try_success _ _ _ _ _ _ H)
    as [response [elements [R [P F]]]].
  exists response, elements. split; [exact R|]. split; [exact P|].
  revert F. apply Forall2_impl. intros e i [_ [index ->]].
  apply formatted_truthy.
Qed.

Lemma map_indexed_nullish (elements : list jsval) :
  existsb is_nullish elements = true ->
  forall first, exists error,
    map_indexed (format_insight Date_now) first elements = Throw error.
Proof.
  induction elements as [|x rest IH]; [discriminate|].
  cbn [existsb]. intros H first. cbn [map_indexed].
  rewrite format_insight_spec. destruct (is_nullish x) eqn:N.
  - eexists. reflexivity.
  - cbn [bind]. destruct (IH H (S first)) as [error E].
    exists error. now rewrite E.
Qed.

(** X12. One bad element discards every insight: when the parsed array holds
    a [null], or when the parsed value is not an array, the result is
    the single ["fallback-1"] insight. An empty array is no failure: it
    gives an empty result. *)
Theorem insights_all_or_nothing (create : Remote) (response : string) :
  responds create request (Some response) ->
  response <> EmptyString ->
  (forall elements,
      JSON_parse (clean_response response) = Some (JArr elements) ->
      existsb is_nullish elements = true ->
      returned create = Ok [unavailable_insight])
  /\ (forall value,
         JSON_parse (clean_response response) = Some value ->
         (forall elements, value <> JArr elements) ->
         returned create = Ok [unavailable_insight])
  /\ (JSON_parse (clean_response response) = Some (JArr []) ->
      returned create = Ok []).
Proof.
  intros R Hr. rewrite (outcome_insights_responds _ _ _ _ _ _ R Hr).
  split; [|split].
  - intros elements P N. rewrite P. cbn [format_insights].
    destruct (map_indexed_nullish elements N 0) as [error E].
    rewrite E. cbn [try_catch]. unfold insights_handler.
    now rewrite (map_indexed_throw Date_now elements 0 error E).
  - intros value P N. rewrite P.
    destruct value; try reflexivity. now elim (N elements).
  - intros P. now rewrite P.
Qed.

(** X13. A rejection with a value that is not an object ([null],
    [undefined], a string, a number, ...) is handled like any other
    failure: the optional chaining reads no property of it. *)
Theorem insights_non_object_rejection (create : Remote) (error : jsval) :
  create request = Throw error ->
  (forall fields, error <> JObj fields) ->
  returned create = Ok [unavailable_insight].
Proof.
  intros C N. rewrite outcome_insights. unfold insights_try. rewrite C.
  cbn [bind try_catch]. unfold insights_handler.
  destruct error; try reflexivity. now elim (N fields).
Qed.

End MoreInsights.

(** X14. The identifier of an expense is not part of what is sent: records
    that differ in their identifiers only give the same requests. *)
Theorem requests_ignore_expense_ids
  (JSON_stringify : list ExpenseSummary.t -> string) (question : string)
  (expenses expenses' : list ExpenseRecord.t) :
  Forall2 same_but_id expenses expenses' ->
  insights_request JSON_stringify expenses
  = insights_request JSON_stringify expenses'
  /\ answer_request JSON_stringify question expenses
     = answer_request JSON_stringify question expenses'.
Proof.
  intros F.
  assert (S : summarize expenses = summarize expenses').
  { induction F as [|a b l l' [Ha [Hc [Hd Ht]]] F IH]; [reflexivity|].
    cbn [summarize map]. fold (summarize l). fold (summarize l').
    now rewrite IH, Ha, Hc, Hd, Ht. }
  unfold insights_request, insights_prompt, answer_request, answer_prompt.
  now rewrite S.
Qed.

(** ** More on the cleaning of the response *)

Section MoreFences.

Lemma is_trimmed_spec (s : string) :
  is_trimmed s = true
  <-> s = EmptyString \/ (first_non_ws s = true /\ last_non_ws s = true).
Proof.
  unfold is_trimmed. now rewrite orb_true_iff, andb_true_iff, String.eqb_eq.
Qed.

Lemma trim_of_trimmed (s : string) : is_trimmed s = true -> trim s = s.
Proof.
  intros H. apply is_trimmed_spec in H as [-> | [Hf Hl]]; [reflexivity|].
  unfold trim. rewrite (trimStart_first_non_ws s Hf).
  now apply trimEnd_last_non_ws.
Qed.

Lemma trimStart_first (s : string) :
  trimStart s = EmptyString \/ first_non_ws (trimStart s) = true.
Proof.
  induction s as [|c s IH]; [now left|].
  simpl. destruct (is_ws c) eqn:E; [exact IH|].
  right. simpl. now rewrite E.
Qed.

Lemma trimEnd_last (s : string) :
  trimEnd s = EmptyString \/ last_non_ws (trimEnd s) = true.
Proof.
  induction s as [|c s IH]; [now left|].
  cbn [trimEnd]. destruct (trimEnd s) as [|a t] eqn:E.
  - destruct (is_ws c) eqn:W; [now left|]. right. simpl. now rewrite W.
  - right. destruct IH as [IH | IH]; [discriminate|]. exact IH.
Qed.

Lemma last_non_ws_suffix (a b : string) :
  last_non_ws (a ++ b) = true -> b = EmptyString \/ last_non_ws b = true.
Proof.
  induction a as [|c a IH]; [now right|].
  simpl. destruct (a ++ b) eqn:E.
  - intros _. left. destruct a; [exact E | discriminate].
  - exact IH.
Qed.

Lemma drop_suffix (n : nat) (s : string) : exists a, s = a ++ drop n s.
Proof.
  revert s. induction n as [|n IH]; intros s; [now exists EmptyString|].
  destruct s as [|c s]; [now exists EmptyString|].
  destruct (IH s) as [a Ha]. exists (String c a). simpl. now rewrite <- Ha.
Qed.

Lemma ended_suffix (a b : string) :
  a ++ b = EmptyString \/ last_non_ws (a ++ b) = true ->
  b = EmptyString \/ last_non_ws b = true.
Proof.
  intros [H | H]; [|now apply (last_non_ws_suffix a)].
  left. destruct a; [exact H | discriminate].
Qed.

Lemma replace_ws_suffix_last (p s : string) :
  s = EmptyString \/ last_non_ws s = true ->
  replace_ws_suffix p s = EmptyString
  \/ last_non_ws (replace_ws_suffix p s) = true.
Proof.
  induction s as [|c s IH]; intros H.
  - left. rewrite replace_ws_suffix_unfold. now destruct (all_ws_then p _).
  - rewrite replace_ws_suffix_unfold.
    destruct (all_ws_then p (String c s)) eqn:M; [now left|]. right.
    destruct H as [H | H]; [discriminate|].
    rewrite all_ws_then_unfold in M. apply orb_false_iff in M as [_ M].
    destruct s as [|a s].
    + rewrite replace_ws_suffix_unfold.
      destruct (all_ws_then p EmptyString); exact H.
    + destruct (IH (or_intror H)) as [E | E].
      * rewrite E. simpl. rewrite replace_ws_suffix_unfold in E.
        destruct (all_ws_then p (String a s)) eqn:M'; [|discriminate].
        rewrite andb_true_r in M. now rewrite M.
      * destruct (replace_ws_suffix p (String a s)); [discriminate | exact E].
Qed.

Lemma replace_ws_suffix_first (p s : string) :
  first_non_ws s = true ->
  replace_ws_suffix p s = EmptyString
  \/ first_non_ws (replace_ws_suffix p s) = true.
Proof.
  destruct s as [|c s]; [discriminate|]. intros H.
  rewrite replace_ws_suffix_unfold.
  destruct (all_ws_then p (String c s)); [now left | now right].
Qed.

Lemma replace_ws_suffix_trimmed (p s : string) :
  is_trimmed s = true -> is_trimmed (replace_ws_suffix p s) = true.
Proof.
  intros H. apply is_trimmed_spec in H as [-> | [Hf Hl]].
  - rewrite replace_ws_suffix_unfold. now destruct (all_ws_then p _).
  - apply is_trimmed_spec.
    destruct (replace_ws_suffix_first p s Hf) as [E | E]; [now left|].
    destruct (replace_ws_suffix_last p s (or_intror Hl)) as [E' | E'];
      [now left | now right].
Qed.

Lemma trim_is_trimmed (s : string) : is_trimmed (trim s) = true.
Proof.
  apply is_trimmed_spec. unfold trim.
  destruct (trimStart_first s) as [E | E]; [rewrite E; now left|].
  destruct (trimEnd_last (trimStart s)) as [E' | E']; [now left|].
  right. split; [|exact E'].
  destruct (trimStart s) as [|c t]; [discriminate|].
  simpl in E. rewrite trimEnd_cons_non_ws by (now destruct (is_ws c)).
  exact E.
Qed.

Lemma replace_prefix_ws_trimmed (p s : string) :
  is_trimmed s = true -> is_trimmed (replace_prefix_ws p s) = true.
Proof.
  intros H. unfold replace_prefix_ws. destruct (startsWith s p); [|exact H].
  apply is_trimmed_spec.
  destruct (trimStart_first (drop (String.length p) s)) as [E | E];
    [now left|].
  right. split; [exact E|].
  destruct (drop_suffix (String.length p) s) as [a Ha].
  destruct (trimStart_decompose (drop (String.length p) s)) as [w Hw].
  apply is_trimmed_spec in H.
  assert (S : s = (a ++ w) ++ trimStart (drop (String.length p) s))
    by (rewrite app_assoc, <- Hw; exact Ha).
  rewrite S in H.
  assert (L : (a ++ w) ++ trimStart (drop (String.length p) s) = EmptyString
              \/ last_non_ws ((a ++ w) ++ trimStart (drop (String.length p) s))
                 = true) by tauto.
  apply ended_suffix in L as [L | L]; [|exact L].
  rewrite L in E. discriminate.
Qed.

(** X15. Whatever the response, the text handed to [JSON.parse] has no blank
    at either end. *)
Theorem clean_response_is_trimmed (response : string) :
  trim (clean_response response) = clean_response response.
Proof.
  apply trim_of_trimmed. unfold clean_response, strip_fence.
  pose proof (trim_is_trimmed response) as T.
  destruct (startsWith (trim response) "```json");
    [|destruct (startsWith (trim response) "```")]; trivial;
    now apply replace_ws_suffix_trimmed, replace_prefix_ws_trimmed.
Qed.

Lemma startsWith_app_false (p x y : string) :
  startsWith x p = false ->
  (forall c y', y = String c y' -> occurs c p = false) ->
  startsWith (x ++ y) p = false.
Proof.
  revert x. induction p as [|a p IH]; intros x H Hy; [discriminate|].
  destruct x as [|b x].
  - simpl. destruct y as [|c y']; [reflexivity|].
    specialize (Hy c y' eq_refl). simpl in Hy.
    apply orb_false_iff in Hy as [Hc _]. simpl. now rewrite Hc.
  - simpl in *. destruct (Ascii.eqb a b); [|reflexivity]. simpl in *.
    apply IH; [exact H|].
    intros c y' E. specialize (Hy c y' E).
    now apply orb_false_iff in Hy as [_ Hy].
Qed.

Lemma blank_not_in_json (c : ascii) : is_ws c = true -> occurs c "json" = false.
Proof.
  intros H. cbn [occurs].
  destruct (Ascii.eqb_spec "j" c) as [<-|_]; [discriminate H|].
  destruct (Ascii.eqb_spec "s" c) as [<-|_]; [discriminate H|].
  destruct (Ascii.eqb_spec "o" c) as [<-|_]; [discriminate H|].
  destruct (Ascii.eqb_spec "n" c) as [<-|_]; [discriminate H|].
  reflexivity.
Qed.

(** X16. Only the tag [json] is removed with the opening fence: with any
    other tag (["javascript"], ["JSON"], ...) the fences go and the tag
    stays at the head of the text handed to [JSON.parse]. *)
Theorem clean_keeps_other_tag (o1 x w o2 : string) :
  all_ws o1 = true -> all_ws w = true -> all_ws o2 = true ->
  first_non_ws x = true -> startsWith x "json" = false ->
  clean_response (o1 ++ ("```" ++ x ++ w ++ "```") ++ o2) = trimEnd x.
Proof.
  intros H1 Hw H2 Hf Hj. unfold clean_response.
  rewrite trim_padded; trivial;
    [|rewrite <- !app_assoc; now apply last_non_ws_app_r].
  rewrite plain_fence_language.
  rewrite startsWith_app_false; trivial.
  - rewrite starts_with_plain_fence, strip_plain_fence.
    rewrite trimStart_first_non_ws
      by (destruct x; [discriminate | exact Hf]).
    now apply replace_ws_suffix_spec.
  - intros c y' E. destruct w as [|a w'].
    + simpl in E. injection E as <- _. reflexivity.
    + simpl in E, Hw. injection E as <- _.
      apply andb_true_iff in Hw as [Ha _]. now apply blank_not_in_json.
Qed.

Lemma clean_keeps_other_tag_witness :
  all_ws EmptyString = true /\ all_ws nl = true
  /\ first_non_ws ("JSON" ++ nl ++ "[]") = true
  /\ startsWith ("JSON" ++ nl ++ "[]") "json" = false
  /\ clean_response
       (EmptyString ++ ("```" ++ ("JSON" ++ nl ++ "[]") ++ nl ++ "```")
        ++ EmptyString)
     = "JSON" ++ nl ++ "[]".
Proof.
  split; [reflexivity|]. split; [reflexivity|]. split; [reflexivity|].
  split; [reflexivity|].
  exact (clean_keeps_other_tag EmptyString ("JSON" ++ nl ++ "[]") nl
           EmptyString eq_refl eq_refl eq_refl eq_refl eq_refl).
Defined.

End MoreFences.

Section UnclosedFence.

Lemma trimStart_blanks (s : string) :
  exists w, all_ws w = true /\ s = w ++ trimStart s.
Proof.
  induction s as [|c s [w [Hw IH]]]; [now exists EmptyString|].
  simpl. destruct (is_ws c) eqn:E.
  - exists (String c w). split; [simpl; now rewrite E, Hw|].
    simpl. now rewrite <- IH.
  - now exists EmptyString.
Qed.

Lemma trimEnd_blanks (s : string) :
  exists w, all_ws w = true /\ s = trimEnd s ++ w.
Proof.
  induction s as [|c s [w [Hw IH]]]; [now exists EmptyString|].
  cbn [trimEnd]. destruct (trimEnd s) as [|a t] eqn:E.
  - destruct (is_ws c) eqn:W.
    + exists (String c w). split; [simpl; now rewrite W, Hw|].
      simpl. simpl in IH. now rewrite <- IH.
    + exists w. split; [exact Hw|]. simpl. f_equal. exact IH.
  - exists w. split; [exact Hw|].
    change (String c s = String c (String a t ++ w)). f_equal. exact IH.
Qed.

(** A string is its trimmed form between two runs of blanks. *)
Lemma trim_blanks (s : string) :
  exists a b, all_ws a = true /\ all_ws b = true /\ s = a ++ trim s ++ b.
Proof.
  destruct (trimStart_blanks s) as [a [Ha E1]].
  destruct (trimEnd_blanks (trimStart s)) as [b [Hb E2]].
  exists a, b. split; [exact Ha|]. split; [exact Hb|].
  unfold trim. now rewrite <- E2.
Qed.

Lemma last_char_non_ws (s : string) (c : ascii) :
  last_char s = Some c -> is_ws c = false -> last_non_ws s = true.
Proof.
  induction s as [|x s IH]; [discriminate|].
  destruct s as [|y s].
  - simpl. intros H W. injection H as ->. now rewrite W.
  - intros H W. exact (IH H W).
Qed.

(** Nothing is removed from a string whose last character is not the
    last one of the pattern. *)
Lemma replace_ws_suffix_no_match (p s : string) (c : ascii) :
  p <> EmptyString -> last_char s = Some c -> last_char p <> Some c ->
  replace_ws_suffix p s = s.
Proof.
  intros Hp. induction s as [|x s IH]; intros Hs Hc; [discriminate|].
  rewrite replace_ws_suffix_unfold.
  destruct (all_ws_then p (String x s)) eqn:M.
  - apply all_ws_then_spec in M as [w [_ E]].
    rewrite E, (last_char_app w p Hp) in Hs. contradiction.
  - f_equal. destruct s as [|y s].
    + rewrite replace_ws_suffix_unfold.
      destruct (all_ws_then p EmptyString); reflexivity.
    + now apply IH.
Qed.

(** X17. An opening fence that is never closed is removed all the same: the
    two [replace] calls do not depend on each other. *)
Theorem clean_unclosed_fence (opening o1 w1 payload o2 : string) :
  opening = "```json" \/ opening = "```" ->
  all_ws o1 = true -> all_ws w1 = true -> all_ws o2 = true ->
  startsWith (trimStart payload) "[" = true ->
  last_char (trim payload) = Some "]"%char ->
  clean_response (o1 ++ (opening ++ w1 ++ payload) ++ o2) = trim payload.
Proof.
  intros Hopen H1 Hw1 H2 Hp Hlast.
  assert (HQ : exists rest, trim payload = String "["%char rest).
  { destruct (starts_with_bracket payload Hp) as [r E]. unfold trim.
    rewrite E, trimEnd_cons_non_ws by reflexivity. now eexists. }
  destruct (trim_blanks payload) as [a [b [Ha [Hb E]]]].
  remember (trim payload) as Q eqn:HeqQ. clear HeqQ Hp.
  destruct HQ as [rest HQ].
  assert (Hl : last_non_ws Q = true)
    by (now apply (last_char_non_ws Q "]"%char)).
  assert (Hns : replace_ws_suffix "```" Q = Q).
  { apply (replace_ws_suffix_no_match "```" Q "]"%char); trivial;
      discriminate. }
  assert (Hts : forall t, trimStart ((w1 ++ a) ++ Q ++ t) = Q ++ t).
  { intros t.
    rewrite trimStart_app_ws by (now rewrite all_ws_app, Hw1, Ha).
    rewrite HQ. reflexivity. }
  assert (Hshape : o1 ++ (opening ++ w1 ++ payload) ++ o2
                   = o1 ++ (opening ++ (w1 ++ a) ++ Q) ++ (b ++ o2)).
  { rewrite E. now rewrite !app_assoc. }
  rewrite Hshape. unfold clean_response.
  rewrite trim_padded; trivial.
  2:{ now rewrite all_ws_app, Hb, H2. }
  2:{ destruct Hopen as [-> | ->]; reflexivity. }
  2:{ rewrite <- app_assoc. now apply last_non_ws_app_r. }
  specialize (Hts EmptyString). rewrite !app_nil_r in Hts.
  destruct Hopen as [-> | ->].
  - change ("```json" ++ (w1 ++ a) ++ Q) with ("```json" ++ ((w1 ++ a) ++ Q)).
    rewrite starts_with_json_fence, strip_json_fence. now rewrite Hts.
  - change ("```" ++ (w1 ++ a) ++ Q) with ("```" ++ ((w1 ++ a) ++ Q)).
    rewrite plain_fence_language.
    assert (Hj : startsWith ((w1 ++ a) ++ Q) "json" = false).
    { apply (startsWith_app_false "json" EmptyString); [reflexivity|].
      intros c y' Ey. destruct (w1 ++ a) as [|x wa] eqn:W.
      - simpl in Ey. rewrite HQ in Ey. injection Ey as <- _. reflexivity.
      - simpl in Ey. injection Ey as <- _.
        assert (Hwa : all_ws (w1 ++ a) = true)
          by (now rewrite all_ws_app, Hw1, Ha).
        rewrite W in Hwa. simpl in Hwa.
        apply andb_true_iff in Hwa as [Hx _]. now apply blank_not_in_json. }
    rewrite Hj, starts_with_plain_fence, strip_plain_fence. now rewrite Hts.
Qed.

Lemma clean_unclosed_fence_witness :
  ("```json" = "```json" \/ "```json" = "```")
  /\ all_ws EmptyString = true /\ all_ws nl = true
  /\ startsWith (trimStart ("[{}]" ++ nl)) "[" = true
  /\ last_char (trim ("[{}]" ++ nl)) = Some "]"%char
  /\ clean_response
       (EmptyString ++ ("```json" ++ nl ++ "[{}]" ++ nl) ++ EmptyString)
     = "[{}]".
Proof.
  split; [left; reflexivity|]. split; [reflexivity|]. split; [reflexivity|].
  split; [reflexivity|]. split; [reflexivity|].
  exact (clean_unclosed_fence "```json" EmptyString nl ("[{}]" ++ nl)
           EmptyString (or_introl eq_refl) eq_refl eq_refl eq_refl eq_refl
           eq_refl).
Defined.

End UnclosedFence.

(** ** The further properties on examples *)

Lemma insight_ids_distinct_witness :
  insights_try (parse_only [("[{},{}]", JArr [JObj []; JObj []])])
    sample_stringify sample_clock [] (answering (Some "[{},{}]"))
  = Ok [formatted sample_clock (JObj []) 0; formatted sample_clock (JObj []) 1]
  /\ map AIInsight.id
       [formatted sample_clock (JObj []) 0; formatted sample_clock (JObj []) 1]
     = ["ai-1700000000000-0"; "ai-1700000000000-1"]
  /\ NoDup (map AIInsight.id
              [formatted sample_clock (JObj []) 0;
               formatted sample_clock (JObj []) 1]).
Proof.
  split; [reflexivity|]. split; [reflexivity|].
  exact (proj1 (proj2 (insight_ids_distinct
                         (parse_only [("[{},{}]", JArr [JObj []; JObj []])])
                         sample_stringify sample_clock []
                         (answering (Some "[{},{}]")) _ eq_refl))).
Defined.

Lemma insights_truthy_fields_kept_witness :
  insights_try (parse_only [(unvalidated_text, JArr [unvalidated_element])])
    sample_stringify sample_clock [] (answering (Some unvalidated_text))
  = Ok [formatted sample_clock unvalidated_element 0]
  /\ AIInsight.type (formatted sample_clock unvalidated_element 0)
     = JStr "danger"
  /\ AIInsight.confidence (formatted sample_clock unvalidated_element 0)
     = JNum (Finite 7)
  /\ exists response elements,
      responds (answering (Some unvalidated_text))
        (insights_request sample_stringify []) (Some response)
      /\ parse_only [(unvalidated_text, JArr [unvalidated_element])]
           (clean_response response) = Some (JArr elements)
      /\ Forall2 truthy_kept elements
           [formatted sample_clock unvalidated_element 0].
Proof.
  split; [reflexivity|]. split; [reflexivity|]. split; [reflexivity|].
  exact (insights_truthy_fields_kept
           (parse_only [(unvalidated_text, JArr [unvalidated_element])])
           sample_stringify sample_clock []
           (answering (Some unvalidated_text)) _ eq_refl).
Defined.

Lemma insights_all_or_nothing_witness :
  responds (answering (Some "[{},null]"))
    (insights_request sample_stringify []) (Some "[{},null]")
  /\ "[{},null]" <> EmptyString
  /\ parse_only [("[{},null]", JArr [JObj []; JNull])]
       (clean_response "[{},null]") = Some (JArr [JObj []; JNull])
  /\ existsb is_nullish [JObj []; JNull] = true
  /\ outcome (answering (Some "[{},null]"))
       (generateExpenseInsights
          (parse_only [("[{},null]", JArr [JObj []; JNull])])
          sample_stringify sample_clock [])
     = Ok [unavailable_insight].
Proof.
  assert (R : responds (answering (Some "[{},null]"))
                (insights_request sample_stringify []) (Some "[{},null]")).
  { eexists. eexists. split; [reflexivity|]. split; reflexivity. }
  assert (H : "[{},null]" <> EmptyString) by discriminate.
  split; [exact R|]. split; [exact H|]. split; [reflexivity|].
  split; [reflexivity|].
  exact (proj1 (insights_all_or_nothing
                  (parse_only [("[{},null]", JArr [JObj []; JNull])])
                  sample_stringify sample_clock []
                  (answering (Some "[{},null]")) "[{},null]" R H)
           [JObj []; JNull] eq_refl eq_refl).
Defined.

Lemma insights_non_object_rejection_witness :
  failing JNull (insights_request sample_stringify []) = Throw JNull
  /\ outcome (failing JNull)
       (generateExpenseInsights sample_parse sample_stringify sample_clock [])
     = Ok [unavailable_insight].
Proof.
  split; [reflexivity|].
  exact (insights_non_object_rejection sample_parse sample_stringify
           sample_clock [] (failing JNull) JNull eq_refl
           (fun fields H => match H with end)).
Defined.

Lemma requests_ignore_expense_ids_witness :
  Forall2 same_but_id
    [ {| ExpenseRecord.id := "a1"; ExpenseRecord.amount := Finite 12;
         ExpenseRecord.category := "Food"; ExpenseRecord.description := "Lunch";
         ExpenseRecord.date := "2024-05-01" |} ]
    [ {| ExpenseRecord.id := "b2"; ExpenseRecord.amount := Finite 12;
         ExpenseRecord.category := "Food"; ExpenseRecord.description := "Lunch";
         ExpenseRecord.date := "2024-05-01" |} ]
  /\ insights_request sample_stringify
       [ {| ExpenseRecord.id := "a1"; ExpenseRecord.amount := Finite 12;
            ExpenseRecord.category := "Food";
            ExpenseRecord.description := "Lunch";
            ExpenseRecord.date := "2024-05-01" |} ]
     = insights_request sample_stringify
         [ {| ExpenseRecord.id := "b2"; ExpenseRecord.amount := Finite 12;
              ExpenseRecord.category := "Food";
              ExpenseRecord.description := "Lunch";
              ExpenseRecord.date := "2024-05-01" |} ].
Proof.
  assert (F : Forall2 same_but_id
    [ {| ExpenseRecord.id := "a1"; ExpenseRecord.amount := Finite 12;
         ExpenseRecord.category := "Food"; ExpenseRecord.description := "Lunch";
         ExpenseRecord.date := "2024-05-01" |} ]
    [ {| ExpenseRecord.id := "b2"; ExpenseRecord.amount := Finite 12;
         ExpenseRecord.category := "Food"; ExpenseRecord.description := "Lunch";
         ExpenseRecord.date := "2024-05-01" |} ]).
  { constructor; [|constructor]. repeat split. }
  split; [exact F|].
  exact (proj1 (requests_ignore_expense_ids sample_stringify "Food?" _ _ F)).
Defined.
